(** * crudegl: vertex layouts, meshes, textures and models

    A shallow embedding of the header-only library [crudegl]
    (vertices.h, textures.h, meshes.h, models.h, utils.h, programs.h).

    Code that talks to the graphics device, to the image decoder or to the
    scene importer is embedded as a state-and-exception computation over a
    [Device] that records every external call in program order.  A C++
    exception leaves the state exactly as it was at the [throw]. *)

From stdpp Require Import base option list strings gmap.
From Stdlib Require Import Ascii NArith ZArith Lia.

Local Open Scope N_scope.

(** ** Computations with state and exceptions *)

(** The exception classes the library throws ([models::model_error]), and
    [std::runtime_error] for exceptions of user-supplied template arguments. *)
Inductive exception :=
| model_error (path message : string)
| runtime_error (message : string).

(** [Crash] stands for undefined behaviour of the C++ program (a raw array
    read out of range, a dereference of an invalid pointer). *)
Inductive outcome (A : Type) :=
| Ok (a : A)
| Throw (e : exception)
| Crash.
Arguments Ok {A} a.
Arguments Throw {A} e.
Arguments Crash {A}.

Definition M (S A : Type) : Type := S → S * outcome A.

Definition ret {S A} (a : A) : M S A := λ s, (s, Ok a).

Definition bind {S A B} (m : M S A) (k : A → M S B) : M S B :=
  λ s, match m s with
       | (s', Ok a) => k a s'
       | (s', Throw e) => (s', Throw e)
       | (s', Crash) => (s', Crash)
       end.

Definition throw {S A} (e : exception) : M S A := λ s, (s, Throw e).
Definition crash {S A} : M S A := λ s, (s, Crash).
Definition get {S} : M S S := λ s, (s, Ok s).
Definition modify {S} (f : S → S) : M S unit := λ s, (f s, Ok tt).

Declare Scope cxx_scope.
Delimit Scope cxx_scope with cxx.
Notation "x <- m ;; k" := (bind m (λ x, k))
  (at level 100, m at next level, right associativity) : cxx_scope.
Notation "m ;; k" := (bind m (λ _, k))
  (at level 100, right associativity) : cxx_scope.
Local Open Scope cxx_scope.

(** Run a computation on a part of the state (a member object, the device
    inside the world). *)
Definition zoom {S1 S2 A} (proj : S1 → S2) (upd : S2 → S1 → S1)
    (m : M S2 A) : M S1 A :=
  λ s, let (s2, r) := m (proj s) in (upd s2 s, r).

(** A range-based [for], or an index loop over an array of known length. *)
Definition for_each {S X} (body : X → M S unit) : list X → M S unit :=
  fix go (l : list X) : M S unit :=
    match l with
    | [] => ret tt
    | x :: l' => body x ;; go l'
    end.

(** ** Machine integers *)

Definition GLuint := N.
Definition GLenum := N.
Definition GLint := Z.

(** [std::size_t] arithmetic on an LP64 / LLP64 target. *)
Definition size_t (n : N) : N := n mod 2 ^ 64.
(** Conversion to the 32-bit unsigned [GLenum] / [GLuint]. *)
Definition to_GLuint (z : Z) : N := Z.to_N (z mod 2 ^ 32).
Definition to_GLenum (n : N) : GLenum := n mod 2 ^ 32.
(** [static_cast<GLint>]: two's complement, 32 bits. *)
Definition to_GLint (z : Z) : GLint := ((z + 2 ^ 31) mod 2 ^ 32 - 2 ^ 31)%Z.

(** ** OpenGL, SOIL and assimp constants (glad.h, SOIL.h, assimp headers) *)

Definition GL_FALSE : N := 0.
Definition GL_TRIANGLES : GLenum := 0x0004.
Definition GL_UNSIGNED_BYTE : GLenum := 0x1401.
Definition GL_UNSIGNED_INT : GLenum := 0x1405.
Definition GL_FLOAT : GLenum := 0x1406.
Definition GL_RGB : GLenum := 0x1907.
Definition GL_TEXTURE_2D : GLenum := 0x0DE1.
Definition GL_TEXTURE_MAG_FILTER : GLenum := 0x2800.
Definition GL_TEXTURE_MIN_FILTER : GLenum := 0x2801.
Definition GL_TEXTURE_WRAP_S : GLenum := 0x2802.
Definition GL_TEXTURE_WRAP_T : GLenum := 0x2803.
Definition GL_LINEAR : GLenum := 0x2601.
Definition GL_NEAREST_MIPMAP_LINEAR : GLenum := 0x2702.
Definition GL_REPEAT : GLenum := 0x2901.
Definition GL_TEXTURE0 : GLenum := 0x84C0.
Definition GL_ARRAY_BUFFER : GLenum := 0x8892.
Definition GL_ELEMENT_ARRAY_BUFFER : GLenum := 0x8893.
Definition GL_STATIC_DRAW : GLenum := 0x88E4.
Definition SOIL_LOAD_RGB : N := 3.
Definition aiProcess_Triangulate : N := 0x8.
Definition aiProcess_FlipUVs : N := 0x800000.
Definition AI_SCENE_FLAGS_INCOMPLETE : N := 0x1.
Definition sizeof_GLuint : N := 4.
Definition sizeof_GLfloat : N := 4.

(** ** The device: a log of external calls *)

(** One constructor per external function the library calls.  Arguments are
    the values written at the call site, before the conversion to the
    parameter types of the prototypes in glad.h; pointers into host memory
    (vertex data, pixel data) are not recorded.  For the [glGen*] functions
    the second argument is the name the device handed out, for
    [glDeleteTextures] it is the name the pointer argument points to. *)
Inductive Call :=
| glGenVertexArrays (n : N) (array : GLuint)
| glBindVertexArray (array : GLuint)
| glGenBuffers (n : N) (buffer : GLuint)
| glBindBuffer (target : GLenum) (buffer : GLuint)
| glBufferData (target : GLenum) (size : N) (usage : GLenum)
| glVertexAttribPointer (index size type normalized stride pointer : N)
| glEnableVertexAttribArray (index : N)
| glDrawElements (mode : GLenum) (count : N) (type : GLenum) (indices : N)
| glDrawArrays (mode : GLenum) (first count : N)
| glGenTextures (n : N) (texture : GLuint)
| glDeleteTextures (n : N) (texture : GLuint)
| glBindTexture (target : GLenum) (texture : GLuint)
| glTexParameteri (target pname param : GLenum)
| glTexImage2D (target level internalformat : N) (image : option (N * N))
    (border format type : N)
| glGenerateMipmap (target : GLenum)
| glActiveTexture (texture_unit : GLenum)
| glGetUniformLocation (program : GLuint) (name : string)
| glUniform1i (location : GLuint) (v0 : GLint)
| SOIL_load_image (filename : string) (force_channels : N)
| SOIL_free_image_data
| Importer_ReadFile (path : string) (flags : N).

(** The device hands out object names 1, 2, 3, ... per object kind. *)
Record Device := {
  calls : list Call;
  generated_vertex_arrays : N;
  generated_buffers : N;
  generated_textures : N
}.

Definition log (c : Call) : M Device unit :=
  modify (λ d, {| calls := calls d ++ [c]; generated_vertex_arrays := generated_vertex_arrays d;
                  generated_buffers := generated_buffers d; generated_textures := generated_textures d |}).

Definition gen_vertex_array : M Device GLuint :=
  λ d, let name := generated_vertex_arrays d + 1 in
       ({| calls := calls d ++ [glGenVertexArrays 1 name]; generated_vertex_arrays := name;
           generated_buffers := generated_buffers d; generated_textures := generated_textures d |}, Ok name).

Definition gen_buffer : M Device GLuint :=
  λ d, let name := generated_buffers d + 1 in
       ({| calls := calls d ++ [glGenBuffers 1 name];
           generated_vertex_arrays := generated_vertex_arrays d;
           generated_buffers := name; generated_textures := generated_textures d |}, Ok name).

Definition gen_texture : M Device GLuint :=
  λ d, let name := generated_textures d + 1 in
       ({| calls := calls d ++ [glGenTextures 1 name];
           generated_vertex_arrays := generated_vertex_arrays d;
           generated_buffers := generated_buffers d; generated_textures := name |}, Ok name).

(** The device after [cs] further calls that generate no names. *)
Definition logged (d : Device) (cs : list Call) : Device :=
  {| calls := calls d ++ cs; generated_vertex_arrays := generated_vertex_arrays d;
     generated_buffers := generated_buffers d; generated_textures := generated_textures d |}.

(** ** vertices.h *)

(** What [VertexAttributeInstaller] reads from an attribute struct: the
    members of its anonymous [enum { size, type, normalized }], and
    [sizeof(TAttribute::type)], the size of that enumeration type (4 for the
    three built-in attributes on the usual ABIs, whatever [type] names). *)
Record Attribute := {
  attr_size : N;
  attr_type : GLenum;
  attr_normalized : N;
  attr_sizeof_type : N
}.

Module attributes.
Definition Position : Attribute :=
  {| attr_size := 3; attr_type := GL_FLOAT; attr_normalized := GL_FALSE;
     attr_sizeof_type := 4 |}.
Definition Normal : Attribute :=
  {| attr_size := 3; attr_type := GL_FLOAT; attr_normalized := GL_FALSE;
     attr_sizeof_type := 4 |}.
Definition TextureCoordinate : Attribute :=
  {| attr_size := 2; attr_type := GL_FLOAT; attr_normalized := GL_FALSE;
     attr_sizeof_type := 4 |}.
End attributes.

(** [Vertex<Attrs...>] as a layout: the attribute pack in declaration order
    and [sizeof(Vertex<Attrs...>)], which the compiler derives from the data
    members of the attribute structs. *)
Record Vertex := {
  Attrs : list Attribute;
  sizeof_Vertex : N
}.

Definition attribute_count (TVertex : Vertex) : nat := length (Attrs TVertex).

(** [DefaultVertex]: two [glm::vec3] and one [glm::vec2] of [float]. *)
Definition DefaultVertex : Vertex :=
  {| Attrs := [attributes.Position; attributes.Normal;
               attributes.TextureCoordinate];
     sizeof_Vertex := 32 |}.

(** [VertexAttributeInstaller<TAttribute>::operator()]; [offset] is passed by
    reference, the updated value is returned. *)
Definition VertexAttributeInstaller (TAttribute : Attribute)
    (stride offset layout_position : N) : M Device N :=
  log (glVertexAttribPointer layout_position (attr_size TAttribute)
         (attr_type TAttribute) (attr_normalized TAttribute) stride offset) ;;
  log (glEnableVertexAttribArray layout_position) ;;
  let data_size := size_t (attr_size TAttribute * attr_sizeof_type TAttribute) in
  ret (size_t (offset + data_size)).

(** The pack expansion of [add_each(offset, index_sequence)]: one installer
    call per layout position, left to right. *)
Fixpoint add_each_expand (TInstaller : Attribute → N → N → N → M Device N)
    (stride : N) (layout_position : N) (attrs : list Attribute) (offset : N)
    : M Device N :=
  match attrs with
  | [] => ret offset
  | a :: attrs' =>
      offset' <- TInstaller a stride offset layout_position ;;
      add_each_expand TInstaller stride (layout_position + 1) attrs' offset'
  end.

Definition add_each (TVertex : Vertex)
    (TInstaller : Attribute → N → N → N → M Device N) : M Device unit :=
  let offset := 0 in
  let stride := sizeof_Vertex TVertex in
  add_each_expand TInstaller stride 0 (Attrs TVertex) offset ;;
  ret tt.

(** *** The layout as the specification words it *)

(** size(A) = component count x component byte size, in [size_t]. *)
Definition attribute_bytes (a : Attribute) : N :=
  size_t (attr_size a * attr_sizeof_type a).

Definition sum_bytes (attrs : list Attribute) : N :=
  foldr (λ a acc, attribute_bytes a + acc) 0 attrs.

(** offset(A_k) = sum of size(A_i) for i < k. *)
Definition offset_at (attrs : list Attribute) (k : nat) : N :=
  size_t (sum_bytes (take k attrs)).

(** The two device calls that bind the attribute at layout position [k]. *)
Definition install_calls (stride : N) (attrs : list Attribute) (k : nat)
    (a : Attribute) : list Call :=
  [glVertexAttribPointer (N.of_nat k) (attr_size a) (attr_type a)
     (attr_normalized a) stride (offset_at attrs k);
   glEnableVertexAttribArray (N.of_nat k)].

Definition layout_calls (stride : N) (attrs : list Attribute) : list Call :=
  mjoin (imap (install_calls stride attrs) attrs).

(** ** utils.h: path strings *)

Module fs.
Definition PATH_SEPARATOR : ascii := "/"%char.

Definition join (base path : string) : string :=
  base +:+ String PATH_SEPARATOR path.

Fixpoint char_in (c : ascii) (delims : string) : bool :=
  match delims with
  | EmptyString => false
  | String d delims' => Ascii.eqb c d || char_in c delims'
  end.

(** [std::string::find_last_of]; [None] is [npos]. *)
Fixpoint find_last_of_from (pos : nat) (delims s : string) : option nat :=
  match s with
  | EmptyString => None
  | String c s' =>
      match find_last_of_from (S pos) delims s' with
      | Some p => Some p
      | None => if char_in c delims then Some pos else None
      end
  end.
Definition find_last_of (s delims : string) : option nat :=
  find_last_of_from 0 delims s.

Definition default_delims : string := String "/" (String "\" EmptyString).

Definition dirname (path : string) : string :=
  match find_last_of path default_delims with
  | Some p => String.substring 0 p path
  | None => path
  end.

(** [npos + 1] wraps to 0, so a path without delimiter is returned whole. *)
Definition basename (path : string) : string :=
  match find_last_of path default_delims with
  | Some p => String.substring (S p) (String.length path - S p) path
  | None => path
  end.

Definition noextension (filename : string) : string :=
  match find_last_of filename (String "." EmptyString) with
  | Some p => if (0 <? p)%nat then String.substring 0 p filename else filename
  | None => filename
  end.
End fs.

(** ** The environment: what the external collaborators answer *)

(** IEEE-754 binary32 values are carried as their bit patterns. *)
Definition float := N.
Definition aiVector3D : Type := float * float * float.

Inductive aiTextureType :=
| aiTextureType_DIFFUSE
| aiTextureType_SPECULAR.

(** A material, as far as [GetTextureCount] and [GetTexture] show it: the
    texture paths per texture type, by slot. *)
Record aiMaterial := {
  material_textures : aiTextureType → list string
}.

Definition GetTextureCount (material : aiMaterial) (type : aiTextureType) : nat :=
  length (material_textures material type).

Record aiFace := {
  mIndices : list GLuint
}.

Record aiMesh := {
  mNumVertices : N;
  mVertices : list aiVector3D;
  mNormals : list aiVector3D;
  mTextureCoords0 : option (list aiVector3D);
  mFaces : list aiFace;
  mMaterialIndex : N
}.

Definition HasTextureCoords0 (mesh : aiMesh) : bool :=
  match mTextureCoords0 mesh with
  | Some _ => 0 <? mNumVertices mesh
  | None => false
  end.

(** A node: the indices of its meshes in [aiScene::mMeshes], its children. *)
#[warnings="-register-all"] Inductive aiNode :=
| Node (mMeshes : list N) (mChildren : list aiNode).

Record aiScene := {
  mFlags : N;
  mRootNode : option aiNode;
  scene_mMeshes : list aiMesh;
  mMaterials : list aiMaterial
}.

Record Environment := {
  (** [Assimp::Importer::ReadFile]; [None] is the null scene. *)
  ReadFile : string → N → option aiScene;
  (** [SOIL_load_image]: width and height of the decoded image; [None] is
      the null pointer of a failed decode, which leaves both unset. *)
  load_image : string → option (N * N);
  (** [glGetUniformLocation]. *)
  uniform_location : GLuint → string → GLint;
  (** The content of storage that was never initialised. *)
  indeterminate : string → bool
}.

(** ** shaders, programs.h *)

Module GLSLProgram.
Record t := { m_handle : GLuint }.

Definition get_uniform_location (env : Environment) (this : t) (name : string)
    : M Device GLuint :=
  log (glGetUniformLocation (m_handle this) name) ;;
  ret (to_GLuint (uniform_location env (m_handle this) name)).

(** [set_uniform(const std::string&, GLint)]. *)
Definition set_uniform (env : Environment) (this : t) (name : string)
    (v0 : GLint) : M Device unit :=
  location <- get_uniform_location env this name ;;
  log (glUniform1i location v0).
End GLSLProgram.

(** ** textures.h *)

(** What meshes.h and models.h require of their [TTexture] argument, with
    the constness that the methods of [Texture2D] have: a texture class
    whose [bind], [unbind] or [get_name] writes the object is outside this
    interface. *)
Class TextureClass (T : Type) := {
  (** [TTexture(path)] *)
  texture_new : string → T;
  (** [void load()] *)
  texture_load : M (T * Device) unit;
  (** [void bind(GLenum) const], [void unbind(GLenum) const] *)
  texture_bind : T → GLenum → M Device unit;
  texture_unbind : T → GLenum → M Device unit;
  (** [std::string get_name() const] *)
  texture_get_name : T → string;
  (** [~TTexture()] *)
  texture_destroy : T → M Device unit
}.

Module Texture2D.
Record t := {
  m_name : string;
  m_path : string;
  m_min_filter : GLenum;
  m_mag_filter : GLenum;
  m_wrap_s : GLenum;
  m_wrap_t : GLenum;
  m_generate_mipmap : bool;
  m_handle : GLuint
}.

(** The constructor.  [m_generate_mipmap] is initialised from itself, not
    from the parameter, so it holds whatever its storage held. *)
Definition new_with (env : Environment) (path name : string)
    (min_filter mag_filter wrap_s wrap_t : GLenum) (generate_mipmap : bool) : t :=
  {| m_name := if decide (name = EmptyString)
               then fs.noextension (fs.basename path) else name;
     m_path := path;
     m_min_filter := min_filter;
     m_mag_filter := mag_filter;
     m_wrap_s := wrap_s;
     m_wrap_t := wrap_t;
     m_generate_mipmap := indeterminate env path;
     m_handle := 0 |}.

(** The constructor with its default arguments. *)
Definition new (env : Environment) (path : string) : t :=
  new_with env path EmptyString GL_NEAREST_MIPMAP_LINEAR GL_LINEAR GL_REPEAT
    GL_REPEAT true.

Definition set_handle (h : GLuint) (this : t) : t :=
  {| m_name := m_name this; m_path := m_path this;
     m_min_filter := m_min_filter this; m_mag_filter := m_mag_filter this;
     m_wrap_s := m_wrap_s this; m_wrap_t := m_wrap_t this;
     m_generate_mipmap := m_generate_mipmap this; m_handle := h |}.

Definition on_device {A} (m : M Device A) : M (t * Device) A :=
  zoom snd (λ d s, (s.1, d)) m.

Definition load (env : Environment) : M (t * Device) unit :=
  h <- on_device gen_texture ;;
  modify (λ s, (set_handle h s.1, s.2)) ;;
  s <- get ;;
  let this := s.1 in
  on_device (
    log (glBindTexture GL_TEXTURE_2D (m_handle this)) ;;
    log (glTexParameteri GL_TEXTURE_2D GL_TEXTURE_WRAP_S (m_wrap_s this)) ;;
    log (glTexParameteri GL_TEXTURE_2D GL_TEXTURE_WRAP_T (m_wrap_t this)) ;;
    log (glTexParameteri GL_TEXTURE_2D GL_TEXTURE_MIN_FILTER (m_min_filter this)) ;;
    log (glTexParameteri GL_TEXTURE_2D GL_TEXTURE_MAG_FILTER (m_mag_filter this)) ;;
    log (SOIL_load_image (m_path this) SOIL_LOAD_RGB) ;;
    log (glTexImage2D GL_TEXTURE_2D 0 GL_RGB (load_image env (m_path this)) 0
           GL_RGB GL_UNSIGNED_BYTE) ;;
    (if m_generate_mipmap this then log (glGenerateMipmap GL_TEXTURE_2D)
     else ret tt) ;;
    log SOIL_free_image_data ;;
    log (glBindTexture GL_TEXTURE_2D 0)).

Definition bind (this : t) (texture_unit : GLenum) : M Device unit :=
  log (glActiveTexture texture_unit) ;;
  log (glBindTexture GL_TEXTURE_2D (m_handle this)).

Definition unbind (this : t) (texture_unit : GLenum) : M Device unit :=
  log (glActiveTexture texture_unit) ;;
  log (glBindTexture GL_TEXTURE_2D 0).

Definition get_handle (this : t) : GLuint := m_handle this.
Definition get_name (this : t) : string := m_name this.

(** [~Texture2D()], whether or not the texture was ever loaded. *)
Definition destroy (this : t) : M Device unit :=
  log (glDeleteTextures 1 (m_handle this)).
End Texture2D.

#[export] Instance Texture2D_class (env : Environment) : TextureClass Texture2D.t := {
  texture_new := Texture2D.new env;
  texture_load := Texture2D.load env;
  texture_bind := Texture2D.bind;
  texture_unbind := Texture2D.unbind;
  texture_get_name := Texture2D.get_name;
  texture_destroy := Texture2D.destroy
}.

(** ** Shared texture objects *)

(** [std::shared_ptr<TTexture>]: the objects live in a heap, a pointer is
    the index of its object.  Loading and rendering destroy no pointer, so
    their computations run on the heap and the device alone; the use counts
    come in where pointers are destroyed ([release] below). *)
Definition shared_ptr := nat.

Record World (T : Type) := {
  heap : list T;
  device : Device
}.
Arguments heap {T} w.
Arguments device {T} w.

Definition on_device {T A} (m : M Device A) : M (World T) A :=
  zoom device (λ d w, {| heap := heap w; device := d |}) m.

Definition make_shared {T} (object : T) : M (World T) shared_ptr :=
  λ w, ({| heap := heap w ++ [object]; device := device w |}, Ok (length (heap w))).

(** [p->method()] for a method that may change the object. *)
Definition arrow {T A} (p : shared_ptr) (method : M (T * Device) A) : M (World T) A :=
  λ w, match heap w !! p with
       | Some object =>
           let (s, r) := method (object, device w) in
           ({| heap := <[p := s.1]> (heap w); device := s.2 |}, r)
       | None => (w, Crash)
       end.

(** [p->method()] for a [const] method. *)
Definition arrow_const {T A} (p : shared_ptr) (method : T → M Device A)
    : M (World T) A :=
  λ w, match heap w !! p with
       | Some object => on_device (method object) w
       | None => (w, Crash)
       end.

(** The control blocks of the shared pointers: how many pointers own each
    object.  An object without an entry has no owner. *)
Definition use_counts := gmap shared_ptr nat.

(** [~shared_ptr()]: the use count drops by one, and the pointer that was
    the last owner runs the destructor of the object.  The destroyed object
    keeps its place in the heap, so that the other pointers keep their
    meaning; it has no entry in the use counts any more.  Destroying a
    pointer that owns nothing cannot happen in a C++ program. *)
Definition release {T} (destroy : T → M Device unit) (p : shared_ptr)
    : M (World T * use_counts) unit :=
  s <- get ;;
  match s.2 !! p with
  | Some 1%nat =>
      zoom fst (λ w s, (w, s.2)) (arrow_const p destroy) ;;
      modify (λ s, (s.1, delete p s.2))
  | Some (S (S n)) => modify (λ s, (s.1, <[p := S n]> s.2))
  | _ => crash
  end.

(** A loop that threads a local variable through its iterations. *)
Definition fold_each {S X A} (body : X → A → M S A) : list X → A → M S A :=
  fix go (l : list X) (a : A) : M S A :=
    match l with
    | [] => ret a
    | x :: l' => a' <- body x a ;; go l' a'
    end.

(** ** Vertex data *)

(** [sizeof(vertex_data_type)], which [Mesh] multiplies the vertex count by. *)
Class VertexData (V : Type) := {
  sizeof_vertex_data : N
}.

(** The constructor [TVertexData(aiMesh*, GLuint)] that [AssetModel] calls.
    [None] stands for undefined behaviour of the constructor. *)
Class FromMesh (V : Type) := {
  vertex_new : aiMesh → GLuint → option V
}.

(** The constructors of the three built-in attributes.  They index the raw
    arrays of the mesh without a check: reading an array past its end, or an
    array the mesh does not have (a null [mNormals] is the empty list), is
    undefined in C++ and [None] here.  Only [TextureCoordinate] asks whether
    the mesh has its array. *)
Module attribute_data.
Definition at_index (array : list aiVector3D) (index : GLuint)
    : option aiVector3D :=
  array !! N.to_nat index.

Definition Position (mesh : aiMesh) (index : GLuint) : option aiVector3D :=
  at_index (mVertices mesh) index.

Definition Normal (mesh : aiMesh) (index : GLuint) : option aiVector3D :=
  at_index (mNormals mesh) index.

Definition TextureCoordinate (mesh : aiMesh) (index : GLuint)
    : option (float * float) :=
  if HasTextureCoords0 mesh then
    match at_index (default [] (mTextureCoords0 mesh)) index with
    | Some (x, y, _) => Some (x, y)
    | None => None
    end
  else Some (0, 0).
End attribute_data.

Record DefaultVertexData := {
  position : aiVector3D;
  normal : aiVector3D;
  texture_coordinate : float * float
}.

#[export] Instance DefaultVertex_data : VertexData DefaultVertexData := {
  sizeof_vertex_data := sizeof_Vertex DefaultVertex
}.

(** [Vertex(aiMesh*, GLuint) : Attrs(mesh, index)...]: the constructors of
    the base classes run in the order of the attribute list. *)
#[export] Instance DefaultVertex_from_mesh : FromMesh DefaultVertexData := {
  vertex_new mesh index :=
    match attribute_data.Position mesh index with
    | Some p =>
        match attribute_data.Normal mesh index with
        | Some n =>
            match attribute_data.TextureCoordinate mesh index with
            | Some t => Some {| position := p; normal := n;
                                texture_coordinate := t |}
            | None => None
            end
        | None => None
        end
    | None => None
    end
}.

(** [GLfloat], the default vertex data type of [RawModel]. *)
Definition GLfloat_data : VertexData float := {|
  sizeof_vertex_data := sizeof_GLfloat
|}.

(** ** meshes.h *)

Definition texture_vec := list shared_ptr.

Module Mesh.
Record t := {
  m_vao : GLuint;
  m_vbo : GLuint;
  m_ebo : GLuint;
  m_vertex_count : N;
  m_index_count : N;
  m_textures : texture_vec
}.

Section Mesh.
Context {V : Type} {VD : VertexData V} {T : Type} {TC : TextureClass T}.
Context (TVertexLayout : Vertex) (env : Environment).

(** The constructor. *)
Definition new (vertices : list V) (indices : list GLuint)
    (textures : texture_vec) : M Device t :=
  let vertex_count := N.of_nat (length vertices) in
  let index_count := N.of_nat (length indices) in
  vao <- gen_vertex_array ;;
  log (glBindVertexArray vao) ;;
  vbo <- gen_buffer ;;
  log (glBindBuffer GL_ARRAY_BUFFER vbo) ;;
  log (glBufferData GL_ARRAY_BUFFER (size_t (vertex_count * sizeof_vertex_data))
         GL_STATIC_DRAW) ;;
  ebo <- (if 0 <? index_count then
            ebo <- gen_buffer ;;
            log (glBindBuffer GL_ELEMENT_ARRAY_BUFFER ebo) ;;
            log (glBufferData GL_ELEMENT_ARRAY_BUFFER
                   (size_t (index_count * sizeof_GLuint)) GL_STATIC_DRAW) ;;
            ret ebo
          else ret 0) ;;
  add_each TVertexLayout VertexAttributeInstaller ;;
  log (glBindVertexArray 0) ;;
  ret {| m_vao := vao; m_vbo := vbo; m_ebo := ebo;
         m_vertex_count := vertex_count; m_index_count := index_count;
         m_textures := textures |}.

(** The body of the loop of [bind_textures]. *)
Definition bind_texture (program : GLSLProgram.t) (it : nat * shared_ptr)
    : M (World T) unit :=
  let (i, texture) := it in
  arrow_const texture
    (λ object, texture_bind object (to_GLenum (size_t (GL_TEXTURE0 + N.of_nat i)))) ;;
  name <- arrow_const texture (λ object, ret (texture_get_name object)) ;;
  on_device (GLSLProgram.set_uniform env program name (to_GLint (Z.of_nat i))).

Definition bind_textures (this : t) (program : GLSLProgram.t) : M (World T) unit :=
  for_each (bind_texture program) (imap pair (m_textures this)).

Definition draw_mesh (this : t) : M Device unit :=
  log (glBindVertexArray (m_vao this)) ;;
  (if 0 <? m_index_count this then
     log (glDrawElements GL_TRIANGLES (m_index_count this) GL_UNSIGNED_INT 0)
   else
     log (glDrawArrays GL_TRIANGLES 0 (m_vertex_count this))) ;;
  log (glBindVertexArray 0).

(** The body of the loop of [unbind_textures]. *)
Definition unbind_texture (it : nat * shared_ptr) : M (World T) unit :=
  let (i, texture) := it in
  arrow_const texture
    (λ object, texture_unbind object (to_GLenum (size_t (GL_TEXTURE0 + N.of_nat i)))).

Definition unbind_textures (this : t) : M (World T) unit :=
  for_each unbind_texture (imap pair (m_textures this)).

Definition render (this : t) (program : GLSLProgram.t) : M (World T) unit :=
  bind_textures this program ;;
  on_device (draw_mesh this) ;;
  unbind_textures this.
End Mesh.


(** [virtual ~Mesh() = default]: the members are destroyed.  The three
    handles are plain integers, so nothing happens for them; the texture
    vector destroys its pointers (first to last, as the common
    implementations of [std::vector] do), and each pointer that was the last
    owner of its texture destroys the texture. *)
Definition destroy {T} {TC : TextureClass T} (this : t)
    : M (World T * use_counts) unit :=
  for_each (release texture_destroy) (m_textures this).
End Mesh.

(** ** models.h *)

Module RawModel.
Record t := {
  m_meshes : list Mesh.t;
  m_loaded_textures : gmap string shared_ptr
}.

Section RawModel.
Context {V : Type} {VD : VertexData V} {T : Type} {TC : TextureClass T}.
Context (TVertexLayout : Vertex) (env : Environment).

(** The body of the loop of the constructor. *)
Definition load_texture (path : string) (textures : texture_vec)
    : M (World T) texture_vec :=
  instance <- make_shared (texture_new path) ;;
  arrow instance texture_load ;;
  ret (textures ++ [instance]).

(** The constructor. *)
Definition new (vertices : list V) (indices : list GLuint)
    (texture_paths : list string) : M (World T) t :=
  textures <- fold_each load_texture texture_paths [] ;;
  mesh <- on_device (Mesh.new TVertexLayout vertices indices textures) ;;
  ret {| m_meshes := [mesh]; m_loaded_textures := ∅ |}.

Definition load : M (t * World T) unit :=
  ret tt.

Definition render (program : GLSLProgram.t) : M (t * World T) unit :=
  s <- get ;;
  for_each (λ mesh, zoom snd (λ w s, (s.1, w)) (Mesh.render env mesh program))
    (m_meshes s.1).
End RawModel.
End RawModel.

Module AssetModel.
Record t := {
  m_loaded : bool;
  m_path : string;
  m_parentdir : string;
  m_meshes : list Mesh.t;
  m_loaded_textures : gmap string shared_ptr
}.

(** The constructor. *)
Definition new (path : string) : t :=
  {| m_loaded := false; m_path := path; m_parentdir := fs.dirname path;
     m_meshes := []; m_loaded_textures := ∅ |}.

Definition set_loaded (b : bool) (this : t) : t :=
  {| m_loaded := b; m_path := m_path this; m_parentdir := m_parentdir this;
     m_meshes := m_meshes this; m_loaded_textures := m_loaded_textures this |}.

Definition push_mesh (mesh : Mesh.t) (this : t) : t :=
  {| m_loaded := m_loaded this; m_path := m_path this;
     m_parentdir := m_parentdir this; m_meshes := m_meshes this ++ [mesh];
     m_loaded_textures := m_loaded_textures this |}.

Definition insert_texture (path : string) (instance : shared_ptr) (this : t) : t :=
  {| m_loaded := m_loaded this; m_path := m_path this;
     m_parentdir := m_parentdir this; m_meshes := m_meshes this;
     m_loaded_textures := <[path := instance]> (m_loaded_textures this) |}.

Section AssetModel.
Context {V : Type} {VD : VertexData V} {FM : FromMesh V} {T : Type} {TC : TextureClass T}.
Context (TVertexLayout : Vertex) (env : Environment).

(** The object and the world it runs in. *)
Definition state : Type := t * World T.

Definition get_this : M state t := λ s, (s, Ok s.1).
Definition on_this (f : t → t) : M state unit := modify (λ s, (f s.1, s.2)).
Definition on_world {A} (m : M (World T) A) : M state A :=
  zoom snd (λ w s, (s.1, w)) m.

(** The body of the loop of [load_textures], for the path that
    [GetTexture(type, i, &path)] returned. *)
Definition load_texture (path : string) (textures : texture_vec)
    : M state texture_vec :=
  this <- get_this ;;
  match m_loaded_textures this !! path with
  | None =>
      instance <- on_world
        (make_shared (texture_new (fs.join (m_parentdir this) path))) ;;
      on_world (arrow instance texture_load) ;;
      on_this (insert_texture path instance) ;;
      ret (textures ++ [instance])
  | Some found => ret (textures ++ [found])
  end.

(** [textures] is passed by reference; the updated vector is returned.  One
    iteration per slot [0 .. GetTextureCount(type) - 1], in slot order. *)
Definition load_textures (material : aiMaterial) (type : aiTextureType)
    (textures : texture_vec) : M state texture_vec :=
  fold_each load_texture (material_textures material type) textures.

Definition collect_textures (raw_mesh : aiMesh) (scene : aiScene)
    : M state texture_vec :=
  if 0 <? mMaterialIndex raw_mesh then
    match mMaterials scene !! N.to_nat (mMaterialIndex raw_mesh) with
    | Some material =>
        textures <- load_textures material aiTextureType_DIFFUSE [] ;;
        load_textures material aiTextureType_SPECULAR textures
    | None => crash
    end
  else ret [].

Definition collect_indices (raw_mesh : aiMesh) : list GLuint :=
  mjoin (map mIndices (mFaces raw_mesh)).

(** One vertex per index below [mNumVertices], in index order; [None] when
    the constructor of some vertex has undefined behaviour. *)
Definition collect_vertices (raw_mesh : aiMesh) : option (list V) :=
  mapM (λ i, vertex_new raw_mesh (N.of_nat i))
    (seq 0 (N.to_nat (mNumVertices raw_mesh))).

(** The vertices and the indices are collected before the textures. *)
Definition process_mesh (raw_mesh : aiMesh) (scene : aiScene) : M state Mesh.t :=
  match collect_vertices raw_mesh with
  | Some vertices =>
      let indices := collect_indices raw_mesh in
      textures <- collect_textures raw_mesh scene ;;
      on_world (on_device (Mesh.new TVertexLayout vertices indices textures))
  | None => crash
  end.

(** The body of the first loop of [process_node]. *)
Definition process_node_mesh (scene : aiScene) (mesh_index : N) : M state unit :=
  match scene_mMeshes scene !! N.to_nat mesh_index with
  | Some raw_mesh =>
      mesh <- process_mesh raw_mesh scene ;;
      on_this (push_mesh mesh)
  | None => crash
  end.

Fixpoint process_node (node : aiNode) (scene : aiScene) : M state unit :=
  match node with
  | Node mMeshes mChildren =>
      for_each (process_node_mesh scene) mMeshes ;;
      for_each (λ child, process_node child scene) mChildren
  end.

Definition load_model : M state unit :=
  this <- get_this ;;
  let flags := N.lor aiProcess_Triangulate aiProcess_FlipUVs in
  on_world (on_device (log (Importer_ReadFile (m_path this) flags))) ;;
  match ReadFile env (m_path this) flags with
  | None => throw (model_error (m_path this) "Cannot load model.")
  | Some scene =>
      if mFlags scene =? AI_SCENE_FLAGS_INCOMPLETE
      then throw (model_error (m_path this) "Cannot load model.")
      else match mRootNode scene with
           | None => throw (model_error (m_path this) "Cannot load model.")
           | Some root => process_node root scene
           end
  end.

Definition load : M state unit :=
  this <- get_this ;;
  if negb (m_loaded this) then
    load_model ;;
    on_this (set_loaded true)
  else ret tt.

Definition render (program : GLSLProgram.t) : M state unit :=
  this <- get_this ;;
  if negb (m_loaded this) then
    throw (model_error (m_path this) "Model not loaded before rendering.")
  else
    for_each (λ mesh, on_world (Mesh.render env mesh program)) (m_meshes this).
End AssetModel.
End AssetModel.

(** ** Example inputs *)

(** A layout with a user-defined attribute next to [Position]:
<<
    struct Colour {
        enum { size = 3, type = GL_UNSIGNED_BYTE, normalized = GL_TRUE };
        GLubyte colour[3];
        Colour(aiMesh*, GLuint);
    };
    using ColouredVertex = Vertex<attributes::Position, Colour>;
>>
    [sizeof(ColouredVertex)] is 16: twelve bytes of [glm::vec3], three bytes
    of colour, one byte of tail padding for the alignment of [float]. *)
Definition Colour : Attribute :=
  {| attr_size := 3; attr_type := GL_UNSIGNED_BYTE; attr_normalized := 1;
     attr_sizeof_type := 4 |}.

Definition ColouredVertex : Vertex :=
  {| Attrs := [attributes.Position; Colour]; sizeof_Vertex := 16 |}.

Definition fresh_device : Device :=
  {| calls := []; generated_vertex_arrays := 0; generated_buffers := 0; generated_textures := 0 |}.

(** The calls a computation added to the log of [d]. *)
Definition new_calls (d d' : Device) : list Call :=
  drop (length (calls d)) (calls d').


(** *** Observing the call log *)

Definition is_draw (c : Call) : bool :=
  match c with
  | glDrawElements _ _ _ _ | glDrawArrays _ _ _ => true
  | _ => false
  end.

(** The files handed to the image decoder, in call order. *)
Definition decoded_files (cs : list Call) : list string :=
  omap (λ c, match c with SOIL_load_image filename _ => Some filename | _ => None end) cs.

Definition world_logged {T} (w : World T) (cs : list Call) : World T :=
  {| heap := heap w; device := logged (device w) cs |}.

(** Every pointer of the vector points to an object of the heap. *)
Definition valid_pointers {T} (w : World T) (textures : texture_vec) : Prop :=
  Forall (λ p, is_Some (heap w !! p)) textures.

(** The draw call of a mesh, as [draw_mesh] words it. *)
Definition draw_call (mesh : Mesh.t) : Call :=
  if 0 <? Mesh.m_index_count mesh
  then glDrawElements GL_TRIANGLES (Mesh.m_index_count mesh) GL_UNSIGNED_INT 0
  else glDrawArrays GL_TRIANGLES 0 (Mesh.m_vertex_count mesh).

Definition texture_unit (i : nat) : GLenum :=
  to_GLenum (size_t (GL_TEXTURE0 + N.of_nat i)).

(** The calls of [Mesh::render] for [Texture2D] textures. *)
Definition bind_calls (env : Environment) (program : GLSLProgram.t)
    (objects : list Texture2D.t) (i : nat) (p : shared_ptr) : list Call :=
  match objects !! p with
  | Some texture =>
      [glActiveTexture (texture_unit i);
       glBindTexture GL_TEXTURE_2D (Texture2D.m_handle texture);
       glGetUniformLocation (GLSLProgram.m_handle program) (Texture2D.m_name texture);
       glUniform1i
         (to_GLuint (uniform_location env (GLSLProgram.m_handle program)
                       (Texture2D.m_name texture)))
         (to_GLint (Z.of_nat i))]
  | None => []
  end.

Definition unbind_calls (i : nat) (p : shared_ptr) : list Call :=
  [glActiveTexture (texture_unit i); glBindTexture GL_TEXTURE_2D 0].

Definition render_calls (env : Environment) (program : GLSLProgram.t)
    (objects : list Texture2D.t) (mesh : Mesh.t) : list Call :=
  mjoin (imap (bind_calls env program objects) (Mesh.m_textures mesh))
  ++ [glBindVertexArray (Mesh.m_vao mesh); draw_call mesh; glBindVertexArray 0]
  ++ mjoin (imap unbind_calls (Mesh.m_textures mesh)).

Definition is_delete_texture (c : Call) : bool :=
  match c with
  | glDeleteTextures _ _ => true
  | _ => false
  end.

(** From [s] to [s'] the texture objects are the same and the device has
    seen calls of [glDeleteTextures] only. *)
Definition deletes_textures_only {T} (s s' : World T * use_counts) : Prop :=
  heap s'.1 = heap s.1
  ∧ generated_vertex_arrays (device s'.1) = generated_vertex_arrays (device s.1)
  ∧ generated_buffers (device s'.1) = generated_buffers (device s.1)
  ∧ generated_textures (device s'.1) = generated_textures (device s.1)
  ∧ ∃ cs, calls (device s'.1) = calls (device s.1) ++ cs
          ∧ Forall is_delete_texture cs.


(** A triangle of [DefaultVertex] data, drawn with indices. *)
Definition triangle : list DefaultVertexData :=
  let v := {| position := (0, 0, 0); normal := (0, 0, 0);
              texture_coordinate := (0, 0) |} in
  [v; v; v].


Definition fresh_world : World Texture2D.t :=
  {| heap := []; device := fresh_device |}.




Definition some_program : GLSLProgram.t := {| GLSLProgram.m_handle := 1 |}.

(** Calls that neither draw nor decode an image. *)
Definition quiet (c : Call) : bool :=
  match c with
  | glDrawElements _ _ _ _ | glDrawArrays _ _ _ | SOIL_load_image _ _ => false
  | _ => true
  end.

(** *** Scene traversal as the specification words it *)

(** Pre-order, depth first: the meshes of the node in index order, then the
    subtree of each child, children in index order. *)
Fixpoint preorder (node : aiNode) : list N :=
  match node with
  | Node mMeshes mChildren => mMeshes ++ mjoin (map preorder mChildren)
  end.

(** The mesh was built from the sub-mesh at [mesh_index] of the scene: it has
    the vertex count of that sub-mesh and one index per face corner. *)
Definition built_from (scene : aiScene) (mesh_index : N) (mesh : Mesh.t) : Prop :=
  ∃ raw_mesh,
    scene_mMeshes scene !! N.to_nat mesh_index = Some raw_mesh
    ∧ Mesh.m_vertex_count mesh = mNumVertices raw_mesh
    ∧ Mesh.m_index_count mesh
      = N.of_nat (length (AssetModel.collect_indices raw_mesh)).

(** The scene and root node that [load_model] goes on to traverse; [None]
    when it throws instead. *)
Definition imported (env : Environment) (path : string) : option (aiScene * aiNode) :=
  match ReadFile env path (N.lor aiProcess_Triangulate aiProcess_FlipUVs) with
  | None => None
  | Some scene =>
      if mFlags scene =? AI_SCENE_FLAGS_INCOMPLETE then None
      else match mRootNode scene with
           | None => None
           | Some root => Some (scene, root)
           end
  end.

(** A computation relates the state it starts in to the state it ends in,
    whatever its outcome. *)
Definition preserves {S A} (R : S → S → Prop) (m : M S A) : Prop :=
  ∀ s s' r, m s = (s', r) → R s s'.

(** The members of an [AssetModel] that only [load], [load_model] and
    [process_node] write. *)
Definition frame {T} (s s' : AssetModel.t * World T) : Prop :=
  AssetModel.m_loaded s'.1 = AssetModel.m_loaded s.1
  ∧ AssetModel.m_path s'.1 = AssetModel.m_path s.1
  ∧ AssetModel.m_parentdir s'.1 = AssetModel.m_parentdir s.1
  ∧ AssetModel.m_meshes s'.1 = AssetModel.m_meshes s.1.

(** *** A crate and its scene *)

Definition origin : aiVector3D := (0, 0, 0).

(** Material 0 has a stone texture; materials 1 and 2 share the wood texture. *)
Definition stone_material : aiMaterial :=
  {| material_textures type :=
       match type with
       | aiTextureType_DIFFUSE => ["stone.png"]
       | aiTextureType_SPECULAR => []
       end |}.

Definition wood_material : aiMaterial :=
  {| material_textures type :=
       match type with
       | aiTextureType_DIFFUSE => ["wood.png"]
       | aiTextureType_SPECULAR => []
       end |}.

Definition varnished_material : aiMaterial :=
  {| material_textures type :=
       match type with
       | aiTextureType_DIFFUSE => ["wood.png"]
       | aiTextureType_SPECULAR => ["gloss.png"]
       end |}.

Definition lid : aiMesh :=
  {| mNumVertices := 3; mVertices := [origin; origin; origin];
     mNormals := [origin; origin; origin]; mTextureCoords0 := None;
     mFaces := [{| mIndices := [0; 1; 2] |}]; mMaterialIndex := 1 |}.

Definition side : aiMesh :=
  {| mNumVertices := 4; mVertices := [origin; origin; origin; origin];
     mNormals := [origin; origin; origin; origin]; mTextureCoords0 := None;
     mFaces := [{| mIndices := [0; 1; 2] |}; {| mIndices := [0; 2; 3] |}];
     mMaterialIndex := 2 |}.

Definition pedestal : aiMesh :=
  {| mNumVertices := 5; mVertices := [origin; origin; origin; origin; origin];
     mNormals := [origin; origin; origin; origin; origin]; mTextureCoords0 := None;
     mFaces := []; mMaterialIndex := 0 |}.

(** The side of the crate as the importer gives it when the file has no
    normals and none are generated: [mNormals] is null. *)
Definition bare_side : aiMesh :=
  {| mNumVertices := 4; mVertices := [origin; origin; origin; origin];
     mNormals := []; mTextureCoords0 := None;
     mFaces := [{| mIndices := [0; 1; 2] |}; {| mIndices := [0; 2; 3] |}];
     mMaterialIndex := 2 |}.

(** A root with two meshes and one child with one mesh. *)
Definition crate_scene : aiScene :=
  {| mFlags := 0;
     mRootNode := Some (Node [0; 1] [Node [2] []]);
     scene_mMeshes := [lid; side; pedestal];
     mMaterials := [stone_material; wood_material; varnished_material] |}.

(** Two sub-meshes that both use material 0. *)
Definition stones_scene : aiScene :=
  {| mFlags := 0;
     mRootNode := Some (Node [0; 1] []);
     scene_mMeshes := [pedestal; pedestal];
     mMaterials := [stone_material] |}.

Definition crate_env : Environment :=
  {| ReadFile path flags :=
       if String.eqb path "assets/crate.obj" then Some crate_scene
       else if String.eqb path "assets/stones.obj" then Some stones_scene
       else None;
     load_image filename :=
       if String.eqb filename "assets/gloss.png" then None else Some (64, 64);
     uniform_location program name := 0%Z;
     indeterminate path := true |}.

(** The lid alone, in a scene whose flag word has the incomplete bit
    ([AI_SCENE_FLAGS_INCOMPLETE], 1) and the validated bit
    ([AI_SCENE_FLAGS_VALIDATED], 2) set. *)
Definition partial_scene : aiScene :=
  {| mFlags := 3;
     mRootNode := Some (Node [0] []);
     scene_mMeshes := [lid];
     mMaterials := [stone_material; wood_material] |}.

Definition partial_env : Environment :=
  {| ReadFile path flags := Some partial_scene;
     load_image filename := Some (64, 64);
     uniform_location program name := 0%Z;
     indeterminate path := true |}.

(** A texture class whose [load] throws when the image cannot be decoded:
<<
    struct CheckedTexture : textures::Texture2D {
        using Texture2D::Texture2D;
        void load();   // throws std::runtime_error, else Texture2D::load()
    };
>> *)
Definition CheckedTexture_load (env : Environment) : M (Texture2D.t * Device) unit :=
  s <- get ;;
  match load_image env (Texture2D.m_path s.1) with
  | None => throw (runtime_error "Cannot decode image.")
  | Some _ => Texture2D.load env
  end.

Definition CheckedTexture_class (env : Environment) : TextureClass Texture2D.t :=
  {| texture_new := Texture2D.new env;
     texture_load := CheckedTexture_load env;
     texture_bind := Texture2D.bind;
     texture_unbind := Texture2D.unbind;
     texture_get_name := Texture2D.get_name;
     texture_destroy := Texture2D.destroy |}.

Definition unloaded_crate : AssetModel.t * World Texture2D.t :=
  (AssetModel.new "assets/crate.obj", fresh_world).

Definition loaded_crate : AssetModel.t * World Texture2D.t :=
  (AssetModel.load (TC := Texture2D_class crate_env) DefaultVertex crate_env
     unloaded_crate).1.

(** "A failed load leaves the mesh list empty and the loaded flag unset",
    for one model in one world. *)
Definition load_is_atomic {V} {VD : VertexData V} {FM : FromMesh V} {T}
    (TC : TextureClass T) (L : Vertex) (env : Environment)
    (s : AssetModel.t * World T) : Prop :=
  ∀ s' e, AssetModel.load L env s = (s', Throw e) →
    AssetModel.m_meshes s'.1 = [] ∧ AssetModel.m_loaded s'.1 = false.

(** A quad given as raw data: four vertices of eight floats each, six
    indices, and the same texture path twice. *)
Definition quad_vertices : list float := repeat 0 32.
Definition quad_indices : list GLuint := [0; 1; 2; 0; 2; 3].
Definition quad_textures : list string := ["wall.png"; "wall.png"].


(** *** The texture cache of a model *)

(** The sub-mesh at [mesh_index] has a material that lists [texture_path]
    among its diffuse or specular textures. *)
Definition references (scene : aiScene) (mesh_index : N) (texture_path : string)
    : Prop :=
  ∃ raw_mesh material,
    scene_mMeshes scene !! N.to_nat mesh_index = Some raw_mesh
    ∧ mMaterials scene !! N.to_nat (mMaterialIndex raw_mesh) = Some material
    ∧ texture_path ∈ material_textures material aiTextureType_DIFFUSE
                     ++ material_textures material aiTextureType_SPECULAR.

Definition material_index_positive (scene : aiScene) (mesh_index : N) : Prop :=
  ∀ raw_mesh, scene_mMeshes scene !! N.to_nat mesh_index = Some raw_mesh →
              0 < mMaterialIndex raw_mesh.

(** After the load of the model at [path] took the world from [w] to the
    state [s'], the meshes at positions [i] and [j] of the mesh list hold one
    and the same pointer for [texture_path]; it is the cache entry of that
    path, its object carries the path resolved against the directory of the
    model, and the load created one object and decoded one image for it. *)
Definition shared_once (path texture_path : string) (i j : nat)
    (w : World Texture2D.t) (s' : AssetModel.t * World Texture2D.t) : Prop :=
  let file := fs.join (fs.dirname path) texture_path in
  ∃ mesh_i mesh_j p texture,
    AssetModel.m_meshes s'.1 !! i = Some mesh_i
    ∧ AssetModel.m_meshes s'.1 !! j = Some mesh_j
    ∧ p ∈ Mesh.m_textures mesh_i
    ∧ p ∈ Mesh.m_textures mesh_j
    ∧ AssetModel.m_loaded_textures s'.1 !! texture_path = Some p
    ∧ heap s'.2 !! p = Some texture
    ∧ Texture2D.m_path texture = file
    ∧ length (filter (λ t, Texture2D.m_path t = file)
                (drop (length (heap w)) (heap s'.2))) = 1%nat
    ∧ length (filter (λ f, f = file)
                (decoded_files (new_calls (device w) (device s'.2)))) = 1%nat.

(** No two cache keys share an object, and no two objects the load created
    share a path. *)
Definition one_texture_per_path (w : World Texture2D.t)
    (s' : AssetModel.t * World Texture2D.t) : Prop :=
  (∀ path1 path2 p,
     AssetModel.m_loaded_textures s'.1 !! path1 = Some p →
     AssetModel.m_loaded_textures s'.1 !! path2 = Some p → path1 = path2)
  ∧ NoDup (Texture2D.m_path <$> drop (length (heap w)) (heap s'.2)).

(** "Two sub-meshes that reference the same texture path share one texture",
    for the model at [path] loaded in the world [w]. *)
Definition deduplicates {V} {VD : VertexData V} {FM : FromMesh V}
    (L : Vertex) (env : Environment) (path : string) (w : World Texture2D.t) : Prop :=
  ∀ s' scene root i j mesh_index_i mesh_index_j texture_path,
    imported env path = Some (scene, root) →
    AssetModel.load (TC := Texture2D_class env) L env (AssetModel.new path, w)
      = (s', Ok tt) →
    i ≠ j →
    preorder root !! i = Some mesh_index_i →
    preorder root !! j = Some mesh_index_j →
    references scene mesh_index_i texture_path →
    references scene mesh_index_j texture_path →
    shared_once path texture_path i j w s'.

(** The invariant of the cache while a model loads, relative to the heap
    size [h0] and the log length [c0] at the start of the traversal. *)
Definition cache_invariant (h0 c0 : nat) (s : AssetModel.t * World Texture2D.t)
    : Prop :=
  (h0 ≤ length (heap s.2))%nat
  ∧ (c0 ≤ length (calls (device s.2)))%nat
  ∧ (∀ path p, AssetModel.m_loaded_textures s.1 !! path = Some p →
       (h0 ≤ p)%nat
       ∧ Texture2D.m_path <$> heap s.2 !! p
         = Some (fs.join (AssetModel.m_parentdir s.1) path))
  ∧ (∀ p, (h0 ≤ p < length (heap s.2))%nat →
       ∃ path, AssetModel.m_loaded_textures s.1 !! path = Some p)
  ∧ decoded_files (drop c0 (calls (device s.2)))
    = Texture2D.m_path <$> drop h0 (heap s.2).

(** The texture pointers of the mesh are the cache entries of the texture
    paths of its material, diffuse before specular. *)
Definition cached_textures (scene : aiScene) (cache : gmap string shared_ptr)
    (mesh_index : N) (mesh : Mesh.t) : Prop :=
  ∀ raw_mesh material,
    scene_mMeshes scene !! N.to_nat mesh_index = Some raw_mesh →
    0 < mMaterialIndex raw_mesh →
    mMaterials scene !! N.to_nat (mMaterialIndex raw_mesh) = Some material →
    Forall2 (λ path p, cache !! path = Some p)
      (material_textures material aiTextureType_DIFFUSE
       ++ material_textures material aiTextureType_SPECULAR)
      (Mesh.m_textures mesh).

(** *** Path strings *)

(** Some character of [s] is one of [delims]. *)
Fixpoint contains_any (delims s : string) : bool :=
  match s with
  | EmptyString => false
  | String c s' => fs.char_in c delims || contains_any delims s'
  end.

Definition dot : string := String "." EmptyString.

(** *** The bindings of the device *)

(** The part of the OpenGL context state that the calls of the library
    select: the bound vertex array, the buffer bound to [GL_ARRAY_BUFFER],
    the active texture unit, and the texture bound to [GL_TEXTURE_2D] on
    each unit (units without texture are absent; a deleted texture is
    unbound from the units that had it).  The element array buffer
    binding belongs to the vertex array object and is not tracked. *)
Record Bindings := {
  vertex_array_binding : GLuint;
  array_buffer_binding : GLuint;
  active_texture : GLenum;
  texture_bindings : gmap N GLuint
}.

(** The effect of one call on the bindings, after the OpenGL specification. *)
Definition gl_step (b : Bindings) (c : Call) : Bindings :=
  match c with
  | glBindVertexArray array =>
      {| vertex_array_binding := array;
         array_buffer_binding := array_buffer_binding b;
         active_texture := active_texture b;
         texture_bindings := texture_bindings b |}
  | glBindBuffer target buffer =>
      if target =? GL_ARRAY_BUFFER then
        {| vertex_array_binding := vertex_array_binding b;
           array_buffer_binding := buffer;
           active_texture := active_texture b;
           texture_bindings := texture_bindings b |}
      else b
  | glActiveTexture texture_unit =>
      {| vertex_array_binding := vertex_array_binding b;
         array_buffer_binding := array_buffer_binding b;
         active_texture := texture_unit;
         texture_bindings := texture_bindings b |}
  | glBindTexture target texture =>
      if target =? GL_TEXTURE_2D then
        {| vertex_array_binding := vertex_array_binding b;
           array_buffer_binding := array_buffer_binding b;
           active_texture := active_texture b;
           texture_bindings :=
             if texture =? 0 then delete (active_texture b) (texture_bindings b)
             else <[active_texture b := texture]> (texture_bindings b) |}
      else b
  | glDeleteTextures _ texture =>
      if texture =? 0 then b
      else
        {| vertex_array_binding := vertex_array_binding b;
           array_buffer_binding := array_buffer_binding b;
           active_texture := active_texture b;
           texture_bindings :=
             filter (λ binding, binding.2 ≠ texture) (texture_bindings b) |}
  | _ => b
  end.

Definition gl_bindings (b : Bindings) (cs : list Call) : Bindings :=
  foldl gl_step b cs.

(** Calls that select no object. *)
Definition selects_nothing (c : Call) : bool :=
  match c with
  | glBindVertexArray _ | glBindBuffer _ _ | glActiveTexture _
  | glBindTexture _ _ | glDeleteTextures _ _ => false
  | _ => true
  end.

(** The calls of [Texture2D::load] for a texture that is handed the name
    [h], in program order. *)
Definition Texture2D_load_calls (env : Environment) (this : Texture2D.t)
    (h : GLuint) : list Call :=
  [glGenTextures 1 h;
   glBindTexture GL_TEXTURE_2D h;
   glTexParameteri GL_TEXTURE_2D GL_TEXTURE_WRAP_S (Texture2D.m_wrap_s this);
   glTexParameteri GL_TEXTURE_2D GL_TEXTURE_WRAP_T (Texture2D.m_wrap_t this);
   glTexParameteri GL_TEXTURE_2D GL_TEXTURE_MIN_FILTER (Texture2D.m_min_filter this);
   glTexParameteri GL_TEXTURE_2D GL_TEXTURE_MAG_FILTER (Texture2D.m_mag_filter this);
   SOIL_load_image (Texture2D.m_path this) SOIL_LOAD_RGB;
   glTexImage2D GL_TEXTURE_2D 0 GL_RGB (load_image env (Texture2D.m_path this)) 0
     GL_RGB GL_UNSIGNED_BYTE]
  ++ (if Texture2D.m_generate_mipmap this then [glGenerateMipmap GL_TEXTURE_2D]
      else [])
  ++ [SOIL_free_image_data; glBindTexture GL_TEXTURE_2D 0].

(** The calls of the constructor of [Mesh] on a device that hands out the
    names [vao], [vbo] and [ebo]. *)
Definition Mesh_new_calls (L : Vertex) (sizeof_data vertex_count index_count : N)
    (vao vbo ebo : GLuint) : list Call :=
  [glGenVertexArrays 1 vao;
   glBindVertexArray vao;
   glGenBuffers 1 vbo;
   glBindBuffer GL_ARRAY_BUFFER vbo;
   glBufferData GL_ARRAY_BUFFER (size_t (vertex_count * sizeof_data)) GL_STATIC_DRAW]
  ++ (if 0 <? index_count then
        [glGenBuffers 1 ebo;
         glBindBuffer GL_ELEMENT_ARRAY_BUFFER ebo;
         glBufferData GL_ELEMENT_ARRAY_BUFFER (size_t (index_count * sizeof_GLuint))
           GL_STATIC_DRAW]
      else [])
  ++ layout_calls (sizeof_Vertex L) (Attrs L)
  ++ [glBindVertexArray 0].

Definition is_free_image (c : Call) : bool :=
  match c with
  | SOIL_free_image_data => true
  | _ => false
  end.

(** *** Reading the vertex data of a mesh *)

(** Every attribute array that the constructors of [DefaultVertex] index
    has an entry for each vertex index below [mNumVertices]. *)
Definition readable (raw_mesh : aiMesh) : Prop :=
  (N.to_nat (mNumVertices raw_mesh) ≤ length (mVertices raw_mesh))%nat
  ∧ (N.to_nat (mNumVertices raw_mesh) ≤ length (mNormals raw_mesh))%nat
  ∧ ∀ coords, mTextureCoords0 raw_mesh = Some coords →
      (N.to_nat (mNumVertices raw_mesh) ≤ length coords)%nat.

(** *** What a load may change *)

(** From [s] to [s'] the heap, the texture cache and the mesh list have only
    been extended, and the path members are the same. *)
Definition grows {T} (s s' : AssetModel.t * World T) : Prop :=
  heap s.2 `prefix_of` heap s'.2
  ∧ AssetModel.m_loaded_textures s.1 ⊆ AssetModel.m_loaded_textures s'.1
  ∧ AssetModel.m_meshes s.1 `prefix_of` AssetModel.m_meshes s'.1
  ∧ AssetModel.m_path s'.1 = AssetModel.m_path s.1
  ∧ AssetModel.m_parentdir s'.1 = AssetModel.m_parentdir s.1
  ∧ (AssetModel.m_loaded s.1 = true → AssetModel.m_loaded s'.1 = true).

(** A computation that has no [throw] on any path. *)
Definition never_throws {S A} (m : M S A) : Prop :=
  ∀ s s' e, m s ≠ (s', Throw e).

(** *** The names of the textures of a model *)

(** The texture objects created since the heap had [h0] objects and the
    device had generated [g0] texture names hold the names generated since,
    in the order of their creation. *)
Definition own_names (h0 : nat) (g0 : N) (w : World Texture2D.t) : Prop :=
  (h0 ≤ length (heap w))%nat
  ∧ generated_textures (device w) = g0 + N.of_nat (length (heap w) - h0)
  ∧ ∀ p texture, (h0 ≤ p)%nat → heap w !! p = Some texture →
      Texture2D.m_handle texture = g0 + N.of_nat (p - h0) + 1.

Definition keeps_names (s s' : AssetModel.t * World Texture2D.t) : Prop :=
  ∀ h0 g0, own_names h0 g0 s.2 → own_names h0 g0 s'.2.
(** * Properties *)

(** ** The monad *)

Lemma bind_Ok {S A B} (m : M S A) (k : A → M S B) s s' a :
  m s = (s', Ok a) → bind m k s = k a s'.
Proof. intros Hm. unfold bind. by rewrite Hm. Qed.

Lemma bind_Throw {S A B} (m : M S A) (k : A → M S B) s s' e :
  m s = (s', Throw e) → bind m k s = (s', Throw e).
Proof. intros Hm. unfold bind. by rewrite Hm. Qed.

Lemma bind_Crash {S A B} (m : M S A) (k : A → M S B) s s' :
  m s = (s', Crash) → bind m k s = (s', Crash).
Proof. intros Hm. unfold bind. by rewrite Hm. Qed.

Lemma bind_Ok_inv {S A B} (m : M S A) (k : A → M S B) s s2 b :
  bind m k s = (s2, Ok b) → ∃ s1 a, m s = (s1, Ok a) ∧ k a s1 = (s2, Ok b).
Proof.
  unfold bind. destruct (m s) as [s1 [a| |]]; [eauto | done | done].
Qed.

Lemma bind_Throw_inv {S A B} (m : M S A) (k : A → M S B) s s2 e :
  bind m k s = (s2, Throw e) →
  m s = (s2, Throw e) ∨ ∃ s1 a, m s = (s1, Ok a) ∧ k a s1 = (s2, Throw e).
Proof.
  unfold bind. destruct (m s) as [s1 [a| |]]; [eauto | | done].
  intros [= -> ->]. by left.
Qed.

Lemma logged_nil d : logged d [] = d.
Proof. destruct d. unfold logged. simpl. by rewrite app_nil_r. Qed.

Lemma logged_logged d cs1 cs2 : logged (logged d cs1) cs2 = logged d (cs1 ++ cs2).
Proof. unfold logged. simpl. by rewrite app_assoc. Qed.

Lemma log_logged c d : log c d = (logged d [c], Ok tt).
Proof. reflexivity. Qed.

Lemma new_calls_logged d cs : new_calls d (logged d cs) = cs.
Proof. unfold new_calls, logged. simpl. by rewrite drop_app_length. Qed.

(** ** vertices.h: the layout installer *)

Lemma size_t_add_l a b : size_t (size_t a + b) = size_t (a + b).
Proof. unfold size_t. by rewrite N.Div0.add_mod_idemp_l. Qed.

Lemma sum_bytes_app l1 l2 : sum_bytes (l1 ++ l2) = sum_bytes l1 + sum_bytes l2.
Proof. induction l1 as [|a l1 IH]; simpl; [done | rewrite IH; lia]. Qed.

Lemma offset_at_S attrs k a :
  attrs !! k = Some a →
  size_t (offset_at attrs k + attribute_bytes a) = offset_at attrs (S k).
Proof.
  intros Hk. unfold offset_at. rewrite size_t_add_l.
  rewrite (take_S_r _ _ _ Hk), sum_bytes_app. simpl. by rewrite N.add_0_r.
Qed.

Lemma VertexAttributeInstaller_run a stride offset position d :
  VertexAttributeInstaller a stride offset position d =
    (logged d [glVertexAttribPointer position (attr_size a) (attr_type a)
                 (attr_normalized a) stride offset;
               glEnableVertexAttribArray position],
     Ok (size_t (offset + attribute_bytes a))).
Proof.
  unfold VertexAttributeInstaller, bind, ret. rewrite !log_logged.
  by rewrite logged_logged.
Qed.

(** The expansion, started in the middle of a layout [done ++ attrs]. *)
Lemma add_each_expand_run stride done attrs d :
  add_each_expand VertexAttributeInstaller stride (N.of_nat (length done)) attrs
      (offset_at (done ++ attrs) (length done)) d =
    (logged d (mjoin (imap (λ k, install_calls stride (done ++ attrs) (length done + k))
                           attrs)),
     Ok (offset_at (done ++ attrs) (length (done ++ attrs)))).
Proof.
  revert done d. induction attrs as [|a attrs IH]; intros done d.
  - simpl. rewrite logged_nil, app_nil_r. reflexivity.
  - cbn [add_each_expand].
    erewrite bind_Ok; [|apply VertexAttributeInstaller_run].
    rewrite offset_at_S; [|by apply list_lookup_middle].
    specialize (IH (done ++ [a])).
    rewrite <- (assoc_L (++)) in IH. simpl in IH.
    rewrite length_app in IH. simpl in IH.
    replace (N.of_nat (length done) + 1) with (N.of_nat (length done + 1)) by lia.
    replace (S (length done)) with (length done + 1)%nat by lia.
    rewrite IH, logged_logged. f_equal. f_equal.
    cbn [imap mjoin list_join]. unfold install_calls at 2.
    rewrite Nat.add_0_r. simpl. do 2 f_equal.
    f_equal. apply imap_ext. intros k x _. simpl.
    by replace (length done + 1 + k)%nat with (length done + S k)%nat by lia.
Qed.

Lemma add_each_run (TVertex : Vertex) (d : Device) :
  add_each TVertex VertexAttributeInstaller d =
    (logged d (layout_calls (sizeof_Vertex TVertex) (Attrs TVertex)), Ok tt).
Proof.
  unfold add_each.
  erewrite bind_Ok; [reflexivity|].
  exact (add_each_expand_run (sizeof_Vertex TVertex) [] (Attrs TVertex) d).
Qed.


Example DefaultVertex_layout :
  layout_calls (sizeof_Vertex DefaultVertex) (Attrs DefaultVertex)
  = [glVertexAttribPointer 0 3 GL_FLOAT GL_FALSE 32 0;
     glEnableVertexAttribArray 0;
     glVertexAttribPointer 1 3 GL_FLOAT GL_FALSE 32 12;
     glEnableVertexAttribArray 1;
     glVertexAttribPointer 2 2 GL_FLOAT GL_FALSE 32 24;
     glEnableVertexAttribArray 2].
Proof. reflexivity. Qed.

Example ColouredVertex_layout :
  layout_calls (sizeof_Vertex ColouredVertex) (Attrs ColouredVertex)
  = [glVertexAttribPointer 0 3 GL_FLOAT GL_FALSE 16 0;
     glEnableVertexAttribArray 0;
     glVertexAttribPointer 1 3 GL_UNSIGNED_BYTE 1 16 12;
     glEnableVertexAttribArray 1]
  ∧ sum_bytes (Attrs ColouredVertex) = 24.
Proof. split; reflexivity. Qed.


(** ** meshes.h *)

Lemma on_device_run {T A} (m : M Device A) (w : World T) :
  on_device m w =
    ({| heap := heap w; device := (m (device w)).1 |}, (m (device w)).2).
Proof. unfold on_device, zoom. by destruct (m (device w)). Qed.

Lemma world_logged_nil {T} (w : World T) : world_logged w [] = w.
Proof. destruct w. unfold world_logged. simpl. by rewrite logged_nil. Qed.

Lemma world_logged_logged {T} (w : World T) cs1 cs2 :
  world_logged (world_logged w cs1) cs2 = world_logged w (cs1 ++ cs2).
Proof. unfold world_logged. simpl. by rewrite logged_logged. Qed.

Lemma quiet_decoded_files cs : Forall quiet cs → decoded_files cs = [].
Proof.
  induction 1 as [|c cs Hc _ IH]; [done|].
  unfold decoded_files in *. destruct c; simpl in *; try done; exact IH.
Qed.

Lemma quiet_no_draw cs : Forall quiet cs → filter is_draw cs = [].
Proof.
  induction 1 as [|c cs Hc _ IH]; [done|].
  rewrite filter_cons, IH. destruct c; simpl in *; done.
Qed.

Lemma layout_calls_quiet stride attrs : Forall quiet (layout_calls stride attrs).
Proof.
  apply Forall_forall. intros c Hc. unfold layout_calls in Hc.
  apply list_elem_of_join in Hc as (cs & Hc & Hcs).
  apply elem_of_lookup_imap in Hcs as (k & a & -> & _).
  unfold install_calls in Hc.
  apply list_elem_of_In in Hc. simpl in Hc. destruct Hc as [<-|[<-|[]]]; done.
Qed.

(** The constructor never throws; it takes one vertex array name and one or
    two buffer names, and records the sizes of the arrays it was given. *)
Lemma Mesh_new_run {V} {VD : VertexData V} (L : Vertex) (vertices : list V)
    (indices : list GLuint) (textures : texture_vec) (d : Device) :
  ∃ cs,
    Mesh.new L vertices indices textures d =
      ({| calls := calls d ++ cs;
          generated_vertex_arrays := generated_vertex_arrays d + 1;
          generated_buffers :=
            generated_buffers d + (if 0 <? N.of_nat (length indices) then 2 else 1);
          generated_textures := generated_textures d |},
       Ok {| Mesh.m_vao := generated_vertex_arrays d + 1;
             Mesh.m_vbo := generated_buffers d + 1;
             Mesh.m_ebo := if 0 <? N.of_nat (length indices)
                           then generated_buffers d + 2 else 0;
             Mesh.m_vertex_count := N.of_nat (length vertices);
             Mesh.m_index_count := N.of_nat (length indices);
             Mesh.m_textures := textures |})
    ∧ Forall quiet cs.
Proof.
  unfold Mesh.new.
  destruct (0 <? N.of_nat (length indices)) eqn:Hn.
  - eexists. split.
    + unfold bind at 1 2 3 4 5 6. cbn -[add_each size_t N.mul].
      unfold bind at 1.
      rewrite add_each_run.
      unfold bind, log, modify, ret, logged. cbn -[size_t N.mul layout_calls].
      rewrite <- !(assoc_L (++)). cbn -[size_t N.mul layout_calls].
      replace (generated_buffers d + 1 + 1) with (generated_buffers d + 2) by lia.
      reflexivity.
    + repeat (apply Forall_cons; split; [done|]).
      apply Forall_app. split; [apply layout_calls_quiet|].
      by repeat constructor.
  - eexists. split.
    + unfold bind at 1 2 3 4 5 6. cbn -[add_each size_t N.mul].
      unfold bind at 1.
      rewrite add_each_run.
      unfold bind, log, modify, ret, logged. cbn -[size_t N.mul layout_calls].
      rewrite <- !(assoc_L (++)). cbn -[size_t N.mul layout_calls].
      reflexivity.
    + repeat (apply Forall_cons; split; [done|]).
      apply Forall_app. split; [apply layout_calls_quiet|].
      by repeat constructor.
Qed.

(** A loop whose iterations only log calls. *)
Lemma for_each_logged {T X} (body : X → M (World T) unit) (f : X → list Call)
    (l : list X) (w : World T) :
  (∀ x cs, x ∈ l → body x (world_logged w cs) = (world_logged w (cs ++ f x), Ok tt)) →
  for_each body l w = (world_logged w (mjoin (map f l)), Ok tt).
Proof.
  intros Hbody.
  enough (∀ cs, for_each body l (world_logged w cs)
                = (world_logged w (cs ++ mjoin (map f l)), Ok tt)) as Hgen.
  { specialize (Hgen []). by rewrite world_logged_nil in Hgen. }
  induction l as [|x l IH]; intros cs.
  - simpl. by rewrite app_nil_r.
  - cbn [for_each]. erewrite bind_Ok; [|apply Hbody; left].
    cbn [for_each] in IH. rewrite IH.
    + simpl. by rewrite <- (assoc_L (++)).
    + intros y cs' Hy. apply Hbody. by right.
Qed.

Lemma on_device_logged {T A} (m : M Device A) (w : World T) cs a :
  m (device w) = (logged (device w) cs, Ok a) →
  on_device m w = (world_logged w cs, Ok a).
Proof. intros Hm. rewrite on_device_run, Hm. reflexivity. Qed.

Lemma Texture2D_bind_run this texture_unit d :
  Texture2D.bind this texture_unit d =
    (logged d [glActiveTexture texture_unit;
               glBindTexture GL_TEXTURE_2D (Texture2D.m_handle this)], Ok tt).
Proof.
  unfold Texture2D.bind, bind. rewrite !log_logged. by rewrite logged_logged.
Qed.

Lemma Texture2D_unbind_run this texture_unit d :
  Texture2D.unbind this texture_unit d =
    (logged d [glActiveTexture texture_unit; glBindTexture GL_TEXTURE_2D 0], Ok tt).
Proof.
  unfold Texture2D.unbind, bind. rewrite !log_logged. by rewrite logged_logged.
Qed.

Lemma set_uniform_run env program name v0 d :
  GLSLProgram.set_uniform env program name v0 d =
    (logged d [glGetUniformLocation (GLSLProgram.m_handle program) name;
               glUniform1i
                 (to_GLuint (uniform_location env (GLSLProgram.m_handle program) name))
                 v0], Ok tt).
Proof.
  unfold GLSLProgram.set_uniform, GLSLProgram.get_uniform_location, bind, ret.
  rewrite !log_logged. by rewrite logged_logged.
Qed.

Lemma draw_mesh_run mesh d :
  Mesh.draw_mesh mesh d =
    (logged d [glBindVertexArray (Mesh.m_vao mesh); draw_call mesh;
               glBindVertexArray 0], Ok tt).
Proof.
  unfold Mesh.draw_mesh, draw_call, bind.
  destruct (0 <? Mesh.m_index_count mesh);
    rewrite !log_logged; by rewrite !logged_logged.
Qed.

Section Texture2D_meshes.
Context (env : Environment).

Lemma bind_texture_run program i p (w : World Texture2D.t) :
  is_Some (heap w !! p) →
  Mesh.bind_texture (TC := Texture2D_class env) env program (i, p) w =
    (world_logged w (bind_calls env program (heap w) i p), Ok tt).
Proof.
  intros [texture Hp]. unfold Mesh.bind_texture, bind_calls, arrow_const.
  rewrite Hp.
  erewrite bind_Ok; [|rewrite Hp; apply on_device_logged, Texture2D_bind_run].
  erewrite bind_Ok; [|cbn [world_logged heap]; rewrite Hp; reflexivity].
  erewrite on_device_logged; [|apply set_uniform_run].
  unfold world_logged. cbn [heap device]. by rewrite logged_logged.
Qed.

Lemma unbind_texture_run i p (w : World Texture2D.t) :
  is_Some (heap w !! p) →
  Mesh.unbind_texture (TC := Texture2D_class env) (i, p) w =
    (world_logged w (unbind_calls i p), Ok tt).
Proof.
  intros [texture Hp]. unfold Mesh.unbind_texture, unbind_calls, arrow_const.
  rewrite Hp. apply on_device_logged, Texture2D_unbind_run.
Qed.

Lemma Mesh_render_run mesh program (w : World Texture2D.t) :
  valid_pointers w (Mesh.m_textures mesh) →
  Mesh.render (TC := Texture2D_class env) env mesh program w =
    (world_logged w (render_calls env program (heap w) mesh), Ok tt).
Proof.
  intros Hvalid. unfold Mesh.render, render_calls.
  erewrite bind_Ok; cycle 1.
  { unfold Mesh.bind_textures.
    apply (for_each_logged _ (λ it, bind_calls env program (heap w) it.1 it.2)).
    intros [i p] cs Hip. apply elem_of_lookup_imap in Hip as (i' & p' & [= -> ->] & Hp).
    rewrite bind_texture_run.
    - by rewrite world_logged_logged.
    - eapply (proj1 (Forall_forall _ _) Hvalid), list_elem_of_lookup_2, Hp. }
  erewrite bind_Ok; cycle 1.
  { apply on_device_logged, draw_mesh_run. }
  unfold Mesh.unbind_textures.
  rewrite (for_each_logged _ (λ it, unbind_calls it.1 it.2)).
  - rewrite !world_logged_logged. do 2 f_equal.
    rewrite !fmap_imap. reflexivity.
  - intros [i p] cs Hip. apply elem_of_lookup_imap in Hip as (i' & p' & [= -> ->] & Hp).
    rewrite !world_logged_logged.
    rewrite <- (world_logged_logged w). rewrite unbind_texture_run.
    + by rewrite !world_logged_logged, <- !(assoc_L (++)).
    + eapply (proj1 (Forall_forall _ _) Hvalid), list_elem_of_lookup_2, Hp.
Qed.

Lemma render_calls_draw program objects mesh :
  filter is_draw (render_calls env program objects mesh) = [draw_call mesh].
Proof.
  unfold render_calls. rewrite !filter_app.
  rewrite (quiet_no_draw (mjoin (imap (bind_calls _ _ _) _))); cycle 1.
  { apply Forall_join, Forall_forall. intros cs Hcs.
    apply elem_of_lookup_imap in Hcs as (i & p & -> & _).
    unfold bind_calls. destruct (objects !! p); by repeat constructor. }
  rewrite (quiet_no_draw (mjoin (imap unbind_calls _))); cycle 1.
  { apply Forall_join, Forall_forall. intros cs Hcs.
    apply elem_of_lookup_imap in Hcs as (i & p & -> & _).
    by repeat constructor. }
  unfold draw_call. destruct (0 <? Mesh.m_index_count mesh); reflexivity.
Qed.
End Texture2D_meshes.

(** C7: a mesh built with indices is drawn with [glDrawElements] and the
    number of indices, a mesh built without indices is drawn with
    [glDrawArrays] and the number of vertices; [render] issues that draw
    call and no other. *)
Theorem Mesh_render_draw_count {V} {VD : VertexData V} (env : Environment)
    (L : Vertex) (vertices : list V) (indices : list GLuint)
    (textures : texture_vec) (program : GLSLProgram.t) (w : World Texture2D.t) :
  valid_pointers w textures →
  ∃ d' mesh w',
    Mesh.new L vertices indices textures (device w) = (d', Ok mesh)
    ∧ Mesh.render (TC := Texture2D_class env) env mesh program
        {| heap := heap w; device := d' |} = (w', Ok tt)
    ∧ filter is_draw (new_calls d' (device w')) =
        [if decide (indices = [])
         then glDrawArrays GL_TRIANGLES 0 (N.of_nat (length vertices))
         else glDrawElements GL_TRIANGLES (N.of_nat (length indices))
                GL_UNSIGNED_INT 0].
Proof.
  intros Hvalid.
  destruct (Mesh_new_run L vertices indices textures (device w)) as (cs & Hnew & _).
  do 3 eexists. split; [exact Hnew|]. split.
  - apply Mesh_render_run. exact Hvalid.
  - unfold world_logged. cbn [device heap]. rewrite new_calls_logged.
    rewrite render_calls_draw. unfold draw_call. cbn [Mesh.m_index_count Mesh.m_vertex_count].
    destruct indices as [|i indices]; [reflexivity|].
    rewrite decide_False by done. reflexivity.
Qed.

#[local] Instance deletes_textures_only_preorder {T} :
  PreOrder (@deletes_textures_only T).
Proof.
  split.
  - intros s. split; [done|]. split; [done|]. split; [done|]. split; [done|].
    exists []. by rewrite app_nil_r.
  - intros s1 s2 s3 (Hh12 & Ha12 & Hb12 & Ht12 & cs12 & Hc12 & Hd12)
      (Hh23 & Ha23 & Hb23 & Ht23 & cs23 & Hc23 & Hd23).
    split; [congruence|]. split; [congruence|]. split; [congruence|].
    split; [congruence|]. exists (cs12 ++ cs23).
    split; [by rewrite Hc23, Hc12, (assoc_L (++))|]. by apply Forall_app.
Qed.







(** ** models.h: AssetModel *)

Lemma preserves_ret {S A} (R : S → S → Prop) `{!Reflexive R} (a : A) :
  preserves R (ret a).
Proof. intros s s' r [= <- _]. reflexivity. Qed.

Lemma preserves_throw {S A} (R : S → S → Prop) `{!Reflexive R} e :
  preserves R (throw (A := A) e).
Proof. intros s s' r [= <- _]. reflexivity. Qed.

Lemma preserves_crash {S A} (R : S → S → Prop) `{!Reflexive R} :
  preserves R (crash (A := A)).
Proof. intros s s' r [= <- _]. reflexivity. Qed.

Lemma preserves_bind {S A B} (R : S → S → Prop) `{!Transitive R}
    (m : M S A) (k : A → M S B) :
  preserves R m → (∀ a, preserves R (k a)) → preserves R (bind m k).
Proof.
  intros Hm Hk s s' r. unfold bind.
  destruct (m s) as [s1 [a| |]] eqn:Hms.
  - intros Hks. etrans; [eapply Hm, Hms | eapply Hk, Hks].
  - intros [= <- _]. eapply Hm, Hms.
  - intros [= <- _]. eapply Hm, Hms.
Qed.

Lemma preserves_fold_each {S X A} (R : S → S → Prop) `{!PreOrder R}
    (body : X → A → M S A) (l : list X) (a : A) :
  (∀ x a, preserves R (body x a)) → preserves R (fold_each body l a).
Proof.
  intros Hbody. revert a. induction l as [|x l IH]; intros a.
  - apply preserves_ret, _.
  - cbn [fold_each]. apply preserves_bind; [apply _ | apply Hbody | apply IH].
Qed.

Lemma preserves_for_each {S X} (R : S → S → Prop) `{!PreOrder R}
    (body : X → M S unit) (l : list X) :
  (∀ x, preserves R (body x)) → preserves R (for_each body l).
Proof.
  intros Hbody. induction l as [|x l IH].
  - apply preserves_ret, _.
  - cbn [for_each]. apply preserves_bind; [apply _ | apply Hbody | intros _; apply IH].
Qed.

Lemma for_each_app {S X} (body : X → M S unit) (l1 l2 : list X) (s : S) :
  for_each body (l1 ++ l2) s = bind (for_each body l1) (λ _, for_each body l2) s.
Proof.
  revert s. induction l1 as [|x l1 IH]; intros s; [done|].
  cbn [app for_each]. unfold bind in *.
  destruct (body x s) as [s1 [[]| |]]; [apply IH | done | done].
Qed.

Lemma bind_ext {S A B} (m m' : M S A) (k k' : A → M S B) (s : S) :
  m s = m' s → (∀ a s1, k a s1 = k' a s1) → bind m k s = bind m' k' s.
Proof.
  intros Hm Hk. unfold bind. rewrite Hm.
  destruct (m' s) as [s1 [a| |]]; [apply Hk | done | done].
Qed.

Lemma for_each_Throw_inv {S X} (body : X → M S unit) (l : list X) s s' e :
  for_each body l s = (s', Throw e) →
  ∃ l1 x l2 s1,
    l = l1 ++ x :: l2
    ∧ for_each body l1 s = (s1, Ok tt)
    ∧ body x s1 = (s', Throw e).
Proof.
  revert s. induction l as [|x l IH]; intros s; [done|].
  cbn [for_each]. intros Hrun.
  apply bind_Throw_inv in Hrun as [Hx | (s1 & [] & Hx & Hl)].
  - by exists [], x, l, s.
  - apply IH in Hl as (l1 & y & l2 & s2 & -> & Hl1 & Hy).
    exists (x :: l1), y, l2, s2. split; [done|]. split; [|done].
    cbn [for_each]. by erewrite bind_Ok.
Qed.

Lemma aiNode_induction (P : aiNode → Prop) :
  (∀ mMeshes mChildren, Forall P mChildren → P (Node mMeshes mChildren)) →
  ∀ node, P node.
Proof.
  intros Hnode. fix IH 1. intros [mMeshes mChildren]. apply Hnode.
  induction mChildren as [|child mChildren IHchildren]; constructor.
  - apply IH.
  - apply IHchildren.
Qed.

#[local] Instance frame_preorder {T} : PreOrder (@frame T).
Proof.
  split.
  - by intros s.
  - intros s1 s2 s3 (?&?&?&?) (?&?&?&?). unfold frame. repeat split; congruence.
Qed.

Section AssetModel_facts.
Context {V : Type} {VD : VertexData V} {FM : FromMesh V}.
Context {T : Type} {TC : TextureClass T}.
Context (L : Vertex) (env : Environment).

Implicit Types s : AssetModel.t * World T.

Lemma on_world_run {A} (m : M (World T) A) s :
  AssetModel.on_world m s = ((s.1, (m s.2).1), (m s.2).2).
Proof. unfold AssetModel.on_world, zoom. by destruct (m s.2). Qed.

Lemma on_world_frame {A} (m : M (World T) A) :
  preserves frame (AssetModel.on_world m).
Proof. intros s s' r. rewrite on_world_run. by intros [= <- _]. Qed.

Lemma load_texture_frame path textures :
  preserves frame (AssetModel.load_texture path textures).
Proof.
  unfold AssetModel.load_texture. apply preserves_bind; [apply _| |].
  { intros s s' r [= <- _]. reflexivity. }
  intros this. destruct (AssetModel.m_loaded_textures this !! path).
  { apply preserves_ret, _. }
  apply preserves_bind; [apply _ | apply on_world_frame |]. intros instance.
  apply preserves_bind; [apply _ | apply on_world_frame |]. intros _.
  apply preserves_bind; [apply _ | | intros _; apply preserves_ret, _].
  by intros s s' r [= <- _].
Qed.

Lemma load_textures_frame material type textures :
  preserves frame (AssetModel.load_textures material type textures).
Proof. apply preserves_fold_each; [apply _ | apply load_texture_frame]. Qed.

Lemma collect_textures_frame raw_mesh scene :
  preserves frame (AssetModel.collect_textures raw_mesh scene).
Proof.
  unfold AssetModel.collect_textures.
  destruct (0 <? mMaterialIndex raw_mesh); [|apply preserves_ret, _].
  destruct (mMaterials scene !! _); [|apply preserves_crash, _].
  apply preserves_bind; [apply _ | apply load_textures_frame |].
  intros textures. apply load_textures_frame.
Qed.

Lemma process_mesh_frame raw_mesh scene :
  preserves frame (AssetModel.process_mesh L raw_mesh scene).
Proof.
  unfold AssetModel.process_mesh.
  destruct (AssetModel.collect_vertices raw_mesh) as [vertices|];
    [|apply preserves_crash, _].
  apply preserves_bind; [apply _ | apply collect_textures_frame |].
  intros textures. apply on_world_frame.
Qed.

(** What [process_mesh] returns, in terms of what [collect_textures] did. *)
Lemma process_mesh_Ok raw_mesh scene s s' mesh :
  AssetModel.process_mesh L raw_mesh scene s = (s', Ok mesh) →
  ∃ s1 cs,
    AssetModel.collect_textures raw_mesh scene s = (s1, Ok (Mesh.m_textures mesh))
    ∧ s'.1 = s1.1 ∧ heap s'.2 = heap s1.2
    ∧ calls (device s'.2) = calls (device s1.2) ++ cs ∧ Forall quiet cs
    ∧ generated_textures (device s'.2) = generated_textures (device s1.2)
    ∧ Mesh.m_vertex_count mesh = mNumVertices raw_mesh
    ∧ Mesh.m_index_count mesh
      = N.of_nat (length (AssetModel.collect_indices raw_mesh)).
Proof.
  unfold AssetModel.process_mesh.
  destruct (AssetModel.collect_vertices raw_mesh) as [vertices|] eqn:Hvertices;
    [|done].
  intros Hrun.
  apply bind_Ok_inv in Hrun as (s1 & textures & Hcollect & Hnew).
  rewrite on_world_run, on_device_run in Hnew.
  destruct (Mesh_new_run L vertices
              (AssetModel.collect_indices raw_mesh) textures (device s1.2))
    as (cs & Hmesh & Hquiet).
  rewrite Hmesh in Hnew. cbn [fst snd] in Hnew.
  injection Hnew as <- <-. exists s1, cs. cbn.
  repeat split; try done.
  unfold AssetModel.collect_vertices in Hvertices.
  apply length_mapM in Hvertices. rewrite length_seq in Hvertices. lia.
Qed.

Lemma process_node_mesh_run scene mesh_index s s' r :
  AssetModel.process_node_mesh L scene mesh_index s = (s', r) →
  AssetModel.m_loaded s'.1 = AssetModel.m_loaded s.1
  ∧ AssetModel.m_path s'.1 = AssetModel.m_path s.1
  ∧ AssetModel.m_parentdir s'.1 = AssetModel.m_parentdir s.1
  ∧ match r with
    | Ok _ => ∃ mesh, AssetModel.m_meshes s'.1 = AssetModel.m_meshes s.1 ++ [mesh]
                      ∧ built_from scene mesh_index mesh
    | _ => AssetModel.m_meshes s'.1 = AssetModel.m_meshes s.1
    end.
Proof.
  unfold AssetModel.process_node_mesh.
  destruct (scene_mMeshes scene !! N.to_nat mesh_index) as [raw_mesh|] eqn:Hraw;
    [|by intros [= <- <-]].
  unfold bind.
  destruct (AssetModel.process_mesh L raw_mesh scene s) as [s1 [mesh| |]] eqn:Hmesh.
  - intros [= <- <-]. cbn.
    destruct (process_mesh_frame _ _ _ _ _ Hmesh) as (-> & -> & -> & ->).
    repeat split. exists mesh. split; [done|].
    apply process_mesh_Ok in Hmesh as (?&?&?&?&?&?&?&?&?&?).
    by exists raw_mesh.
  - intros [= <- <-]. apply (process_mesh_frame _ _ _ _ _ Hmesh).
  - intros [= <- <-]. apply (process_mesh_frame _ _ _ _ _ Hmesh).
Qed.

(** The meshes a run of the mesh loop appends, one per sub-mesh, in order. *)
Lemma for_each_mesh_Ok scene (l : list N) s s' :
  for_each (AssetModel.process_node_mesh L scene) l s = (s', Ok tt) →
  AssetModel.m_loaded s'.1 = AssetModel.m_loaded s.1
  ∧ AssetModel.m_path s'.1 = AssetModel.m_path s.1
  ∧ ∃ meshes, AssetModel.m_meshes s'.1 = AssetModel.m_meshes s.1 ++ meshes
              ∧ Forall2 (built_from scene) l meshes.
Proof.
  revert s. induction l as [|x l IH]; intros s.
  - intros [= <-]. repeat split. exists []. by rewrite app_nil_r.
  - cbn [for_each]. intros Hrun.
    apply bind_Ok_inv in Hrun as (s1 & [] & Hx & Hl).
    apply process_node_mesh_run in Hx as (Hloaded & Hpath & _ & mesh & Hmeshes & Hmesh).
    apply IH in Hl as (-> & -> & meshes & -> & Hall).
    repeat split; [done..|]. exists (mesh :: meshes). split.
    + rewrite Hmeshes. by rewrite <- (assoc_L (++)).
    + by constructor.
Qed.

Lemma process_node_for_each scene node s :
  AssetModel.process_node L node scene s
  = for_each (AssetModel.process_node_mesh L scene) (preorder node) s.
Proof.
  revert s. induction node as [mMeshes mChildren IH] using aiNode_induction.
  intros s. cbn [AssetModel.process_node preorder].
  rewrite for_each_app. apply bind_ext; [done|]. intros _. clear s.
  induction IH as [|child mChildren Hchild _ IH]; intros s; [done|].
  cbn [for_each map mjoin list_join]. rewrite for_each_app.
  apply bind_ext; [apply Hchild | intros _; apply IH].
Qed.


Lemma load_model_Throw s s' e :
  AssetModel.load_model L env s = (s', Throw e) →
  AssetModel.m_loaded s'.1 = AssetModel.m_loaded s.1
  ∧ ∃ meshes,
      AssetModel.m_meshes s'.1 = AssetModel.m_meshes s.1 ++ meshes
      ∧ match imported env (AssetModel.m_path s.1) with
        | None => meshes = []
                  ∧ e = model_error (AssetModel.m_path s.1) "Cannot load model."
        | Some (scene, root) =>
            ∃ visited mesh_index rest,
              preorder root = visited ++ mesh_index :: rest
              ∧ Forall2 (built_from scene) visited meshes
        end.
Proof.
  unfold AssetModel.load_model, imported. intros Hrun.
  apply bind_Throw_inv in Hrun as [[=] | (s0 & this & [= <- <-] & Hrun)].
  apply bind_Throw_inv in Hrun as [Hrun | (s1 & [] & Hlog & Hrun)].
  { by rewrite on_world_run, on_device_run in Hrun. }
  rewrite on_world_run, on_device_run in Hlog. injection Hlog as <-.
  set (flags := N.lor aiProcess_Triangulate aiProcess_FlipUVs) in *.
  destruct (ReadFile env (AssetModel.m_path s.1) flags) as [scene|].
  2: { injection Hrun as <- <-. split; [done|]. exists []. by rewrite app_nil_r. }
  destruct (mFlags scene =? AI_SCENE_FLAGS_INCOMPLETE).
  { injection Hrun as <- <-. split; [done|]. exists []. by rewrite app_nil_r. }
  destruct (mRootNode scene) as [root|].
  2: { injection Hrun as <- <-. split; [done|]. exists []. by rewrite app_nil_r. }
  rewrite process_node_for_each in Hrun.
  apply for_each_Throw_inv in Hrun as (visited & x & rest & s1 & Hpre & Hvisited & Hx).
  apply for_each_mesh_Ok in Hvisited as (Hloaded & _ & meshes & Hmeshes & Hall).
  apply process_node_mesh_run in Hx as (Hloaded' & _ & _ & Hmeshes').
  split; [by rewrite Hloaded', Hloaded|].
  exists meshes. split; [by rewrite Hmeshes', Hmeshes|].
  by exists visited, x, rest.
Qed.

(** C3 (as the code has it): when [load] fails, the loaded flag is not set.
    When the importer fails, no mesh has been added.  When the traversal
    fails at some sub-mesh, the meshes of the sub-meshes visited before it
    are in the mesh list, in traversal order. *)
Theorem load_failure_keeps_visited_meshes s s' e :
  AssetModel.load L env s = (s', Throw e) →
  AssetModel.m_loaded s'.1 = false
  ∧ ∃ meshes,
      AssetModel.m_meshes s'.1 = AssetModel.m_meshes s.1 ++ meshes
      ∧ match imported env (AssetModel.m_path s.1) with
        | None => meshes = []
                  ∧ e = model_error (AssetModel.m_path s.1) "Cannot load model."
        | Some (scene, root) =>
            ∃ visited mesh_index rest,
              preorder root = visited ++ mesh_index :: rest
              ∧ Forall2 (built_from scene) visited meshes
        end.
Proof.
  unfold AssetModel.load. intros Hrun.
  apply bind_Throw_inv in Hrun as [[=] | (s0 & this & [= <- <-] & Hrun)].
  destruct (AssetModel.m_loaded s.1) eqn:Hloaded; [done|]. cbn [negb] in Hrun.
  apply bind_Throw_inv in Hrun as [Hrun | (s1 & [] & _ & [=])].
  apply load_model_Throw in Hrun as (Hloaded' & Hmeshes).
  split; [congruence | exact Hmeshes].
Qed.

(** C4: after [load] has succeeded, a second [load] returns at once: the
    model, the heap and the call log are what the first call left. *)
Theorem load_idempotent s s' :
  AssetModel.load L env s = (s', Ok tt) →
  AssetModel.load L env s' = (s', Ok tt).
Proof.
  intros Hrun.
  assert (AssetModel.m_loaded s'.1 = true) as Hloaded.
  { unfold AssetModel.load in Hrun.
    apply bind_Ok_inv in Hrun as (s0 & this & [= <- <-] & Hrun).
    destruct (AssetModel.m_loaded s.1) eqn:Hloaded; cbn [negb] in Hrun.
    - by injection Hrun as <-.
    - apply bind_Ok_inv in Hrun as (s1 & [] & _ & [= <-]). done. }
  unfold AssetModel.load, bind, AssetModel.get_this. by rewrite Hloaded.
Qed.

End AssetModel_facts.

(** *** The crate *)

Example crate_traversal :
  imported crate_env "assets/crate.obj" = Some (crate_scene, Node [0; 1] [Node [2] []])
  ∧ preorder (Node [0; 1] [Node [2] []]) = [0; 1; 2]
  ∧ map Mesh.m_vertex_count (AssetModel.m_meshes loaded_crate.1) = [3; 4; 5]
  ∧ map Mesh.m_index_count (AssetModel.m_meshes loaded_crate.1) = [3; 6; 0]
  ∧ map Mesh.m_textures (AssetModel.m_meshes loaded_crate.1) = [[0]; [0; 1]; []]%nat
  ∧ AssetModel.m_loaded loaded_crate.1 = true.
Proof. vm_compute. done. Qed.


(** C3 as stated fails: with a texture class whose [load] throws, the load
    of the crate fails at its second sub-mesh and leaves the mesh of the
    first in the mesh list. *)
Lemma failed_load_keeps_a_mesh :
  ¬ load_is_atomic (CheckedTexture_class crate_env) DefaultVertex crate_env
      unloaded_crate.
Proof.
  intros Hclaim.
  destruct (AssetModel.load (TC := CheckedTexture_class crate_env) DefaultVertex
              crate_env unloaded_crate) as [s' [[]|e|]] eqn:Hrun;
    pose proof Hrun as Hvalue; vm_compute in Hvalue; try discriminate Hvalue.
  apply Hclaim in Hrun as [Hmeshes _].
  injection Hvalue as <- _. discriminate Hmeshes.
Qed.

Lemma load_failure_keeps_visited_meshes_witness :
  let s := unloaded_crate in
  let s' := (AssetModel.load (TC := CheckedTexture_class crate_env) DefaultVertex
               crate_env s).1 in
  AssetModel.load (TC := CheckedTexture_class crate_env) DefaultVertex crate_env s
    = (s', Throw (runtime_error "Cannot decode image."))
  ∧ AssetModel.m_loaded s'.1 = false
  ∧ ∃ meshes,
      AssetModel.m_meshes s'.1 = [] ++ meshes
      ∧ ∃ visited mesh_index rest,
          [0; 1; 2] = visited ++ mesh_index :: rest
          ∧ Forall2 (built_from crate_scene) visited meshes.
Proof.
  intros s s'.
  assert (AssetModel.load (TC := CheckedTexture_class crate_env) DefaultVertex
            crate_env s = (s', Throw (runtime_error "Cannot decode image."))) as Hrun
    by (vm_compute; reflexivity).
  split; [exact Hrun|].
  exact (load_failure_keeps_visited_meshes (TC := CheckedTexture_class crate_env)
           DefaultVertex crate_env s s' _ Hrun).
Defined.

Lemma load_idempotent_witness :
  AssetModel.load (TC := Texture2D_class crate_env) DefaultVertex crate_env
    unloaded_crate = (loaded_crate, Ok tt)
  ∧ AssetModel.load (TC := Texture2D_class crate_env) DefaultVertex crate_env
      loaded_crate = (loaded_crate, Ok tt).
Proof.
  assert (AssetModel.load (TC := Texture2D_class crate_env) DefaultVertex crate_env
            unloaded_crate = (loaded_crate, Ok tt)) as Hrun
    by (vm_compute; reflexivity).
  split; [exact Hrun|].
  exact (load_idempotent (TC := Texture2D_class crate_env) DefaultVertex crate_env
           _ _ Hrun).
Defined.


Lemma Mesh_render_draw_count_witness :
  valid_pointers loaded_crate.2 [0; 1]%nat
  ∧ ∃ d' mesh w',
      Mesh.new DefaultVertex triangle [0; 1; 2] [0; 1]%nat (device loaded_crate.2)
        = (d', Ok mesh)
      ∧ Mesh.render (TC := Texture2D_class crate_env) crate_env mesh some_program
          {| heap := heap loaded_crate.2; device := d' |} = (w', Ok tt)
      ∧ filter is_draw (new_calls d' (device w'))
        = [glDrawElements GL_TRIANGLES 3 GL_UNSIGNED_INT 0].
Proof.
  assert (valid_pointers loaded_crate.2 [0; 1]%nat) as Hvalid.
  { repeat constructor; vm_compute; eexists; reflexivity. }
  split; [exact Hvalid|].
  exact (Mesh_render_draw_count crate_env DefaultVertex triangle [0; 1; 2]
           [0; 1]%nat some_program loaded_crate.2 Hvalid).
Defined.

(** ** Rendering a model *)

Lemma draw_calls_of_meshes env program objects meshes :
  filter is_draw (mjoin (map (render_calls env program objects) meshes))
  = map draw_call meshes.
Proof.
  induction meshes as [|mesh meshes IH]; [done|].
  change (filter is_draw
            (render_calls env program objects mesh
             ++ mjoin (map (render_calls env program objects) meshes))
          = draw_call mesh :: map draw_call meshes).
  by rewrite filter_app, render_calls_draw, IH.
Qed.

Lemma render_meshes_run env program this (w : World Texture2D.t) meshes :
  Forall (λ mesh, valid_pointers w (Mesh.m_textures mesh)) meshes →
  for_each (λ mesh, AssetModel.on_world
                      (Mesh.render (TC := Texture2D_class env) env mesh program))
    meshes (this, w)
  = ((this, world_logged w (mjoin (map (render_calls env program (heap w)) meshes))),
     Ok tt).
Proof.
  intros Hvalid.
  enough (∀ cs,
    for_each (λ mesh, AssetModel.on_world
                        (Mesh.render (TC := Texture2D_class env) env mesh program))
      meshes (this, world_logged w cs)
    = ((this, world_logged w
                (cs ++ mjoin (map (render_calls env program (heap w)) meshes))),
       Ok tt)) as Hgen.
  { specialize (Hgen []). by rewrite world_logged_nil in Hgen. }
  induction Hvalid as [|mesh meshes Hmesh _ IH]; intros cs.
  - cbn. by rewrite app_nil_r.
  - cbn [for_each]. erewrite bind_Ok; cycle 1.
    { rewrite on_world_run. cbn [fst snd]. rewrite Mesh_render_run; [|exact Hmesh].
      cbn [fst snd]. rewrite world_logged_logged. reflexivity. }
    cbn [for_each] in IH. rewrite IH.
    change (mjoin (map (render_calls env program (heap w)) (mesh :: meshes)))
      with (render_calls env program (heap w) mesh
            ++ mjoin (map (render_calls env program (heap w)) meshes)).
    by rewrite <- (assoc_L (++)).
Qed.

(** C6: [render] on a model that is not loaded throws [model_error] with
    the path of the model and the message "Model not loaded before
    rendering.", and leaves the model and the world, call log included, as
    they were.  On a loaded model it renders the meshes in the order of the
    mesh list, each with the program it was given: one draw call per mesh,
    in that order. *)
Theorem render_requires_loaded (env : Environment) (program : GLSLProgram.t) :
  (∀ {T} (TC : TextureClass T) (s : AssetModel.t * World T),
     AssetModel.m_loaded s.1 = false →
     AssetModel.render env program s
     = (s, Throw (model_error (AssetModel.m_path s.1)
                    "Model not loaded before rendering.")))
  ∧ (∀ s : AssetModel.t * World Texture2D.t,
       AssetModel.m_loaded s.1 = true →
       Forall (λ mesh, valid_pointers s.2 (Mesh.m_textures mesh))
         (AssetModel.m_meshes s.1) →
       let cs := mjoin (map (render_calls env program (heap s.2))
                          (AssetModel.m_meshes s.1)) in
       AssetModel.render (TC := Texture2D_class env) env program s
       = ((s.1, world_logged s.2 cs), Ok tt)
       ∧ filter is_draw cs = map draw_call (AssetModel.m_meshes s.1)).
Proof.
  split.
  - intros T TC s Hloaded.
    unfold AssetModel.render, bind, AssetModel.get_this. by rewrite Hloaded.
  - intros [this w] Hloaded Hvalid cs. cbn [fst snd] in *. split.
    + unfold AssetModel.render, bind, AssetModel.get_this. cbn [fst snd].
      rewrite Hloaded. cbn [negb]. by apply render_meshes_run.
    + apply draw_calls_of_meshes.
Qed.

Lemma render_requires_loaded_witness :
  (AssetModel.m_loaded unloaded_crate.1 = false
   ∧ AssetModel.render (TC := Texture2D_class crate_env) crate_env some_program
       unloaded_crate
     = (unloaded_crate,
        Throw (model_error "assets/crate.obj" "Model not loaded before rendering.")))
  ∧ (AssetModel.m_loaded loaded_crate.1 = true
     ∧ filter is_draw
         (mjoin (map (render_calls crate_env some_program (heap loaded_crate.2))
                   (AssetModel.m_meshes loaded_crate.1)))
       = [glDrawElements GL_TRIANGLES 3 GL_UNSIGNED_INT 0;
          glDrawElements GL_TRIANGLES 6 GL_UNSIGNED_INT 0;
          glDrawArrays GL_TRIANGLES 0 5]).
Proof.
  split.
  - split; [reflexivity|].
    exact (proj1 (render_requires_loaded crate_env some_program) _
             (Texture2D_class crate_env) unloaded_crate eq_refl).
  - assert (AssetModel.m_loaded loaded_crate.1 = true) as Hloaded
      by (vm_compute; reflexivity).
    split; [exact Hloaded|].
    assert (Forall (λ mesh, valid_pointers loaded_crate.2 (Mesh.m_textures mesh))
              (AssetModel.m_meshes loaded_crate.1)) as Hvalid.
    { vm_compute. repeat constructor; eexists; reflexivity. }
    exact (proj2 (proj2 (render_requires_loaded crate_env some_program)
                    loaded_crate Hloaded Hvalid)).
Defined.

(** ** Textures of a model *)

Lemma decoded_files_app cs1 cs2 :
  decoded_files (cs1 ++ cs2) = decoded_files cs1 ++ decoded_files cs2.
Proof. unfold decoded_files. apply omap_app. Qed.

Lemma join_inj base path1 path2 :
  fs.join base path1 = fs.join base path2 → path1 = path2.
Proof.
  unfold fs.join. induction base as [|c base IH]; cbn.
  - by intros [= ->].
  - intros [= Heq]. by apply IH.
Qed.

Lemma filter_none {A} (P : A → Prop) `{!∀ x, Decision (P x)} (l : list A) :
  Forall (λ x, ¬ P x) l → filter P l = [].
Proof.
  induction 1 as [|x l Hx _ IH]; [done|]. by rewrite filter_cons_False.
Qed.

(** A list in which one position alone satisfies [P]. *)
Lemma filter_unique {A} (P : A → Prop) `{!∀ x, Decision (P x)} (l : list A) i x :
  l !! i = Some x → P x →
  (∀ j y, l !! j = Some y → P y → j = i) →
  length (filter P l) = 1%nat.
Proof.
  intros Hi Hx Hunique.
  rewrite <- (take_drop_middle l i x Hi), filter_app, filter_cons_True by done.
  assert (filter P (take i l) = []) as ->.
  { apply filter_none, Forall_forall. intros y Hy HP.
    apply list_elem_of_lookup in Hy as [j Hj].
    pose proof (lookup_lt_Some _ _ _ Hj) as Hlt. rewrite length_take in Hlt.
    rewrite lookup_take_lt in Hj by lia.
    specialize (Hunique j y Hj HP). lia. }
  assert (filter P (drop (S i) l) = []) as ->.
  { apply filter_none, Forall_forall. intros y Hy HP.
    apply list_elem_of_lookup in Hy as [j Hj]. rewrite lookup_drop in Hj.
    specialize (Hunique _ y Hj HP). lia. }
  done.
Qed.

Lemma Texture2D_load_run env (this : Texture2D.t) (d : Device) :
  ∃ cs,
    Texture2D.load env (this, d)
    = ((Texture2D.set_handle (generated_textures d + 1) this,
        {| calls := calls d ++ cs;
           generated_vertex_arrays := generated_vertex_arrays d;
           generated_buffers := generated_buffers d;
           generated_textures := generated_textures d + 1 |}), Ok tt)
    ∧ decoded_files cs = [Texture2D.m_path this]
    ∧ filter is_draw cs = [].
Proof.
  unfold Texture2D.load, Texture2D.on_device, zoom, bind, get, modify, log,
    gen_texture, ret.
  cbn. destruct (Texture2D.m_generate_mipmap this); cbn;
    rewrite <- !(assoc_L (++)); cbn; eexists; (split; [reflexivity|]); done.
Qed.

Lemma on_world_eq {T A} (m : M (World T) A) (s : AssetModel.t * World T) w' r :
  m s.2 = (w', r) → AssetModel.on_world m s = ((s.1, w'), r).
Proof. intros Hm. unfold AssetModel.on_world, zoom. by rewrite Hm. Qed.

Section Texture2D_cache.
Context {V : Type} {VD : VertexData V} {FM : FromMesh V}.
Context (L : Vertex) (env : Environment).

Implicit Types s : AssetModel.t * World Texture2D.t.

#[local] Existing Instance Texture2D_class.

#[local] Abbreviation load_texture := (AssetModel.load_texture (TC := Texture2D_class env)).
#[local] Abbreviation load_textures := (AssetModel.load_textures (TC := Texture2D_class env)).
#[local] Abbreviation collect_textures := (AssetModel.collect_textures (TC := Texture2D_class env)).
#[local] Abbreviation process_node_mesh :=
  (AssetModel.process_node_mesh (TC := Texture2D_class env) L).

(** One iteration of [load_textures]: a hit changes nothing, a miss appends
    one loaded texture to the heap and enters it in the cache. *)
Lemma load_texture_run path textures s :
  match AssetModel.m_loaded_textures s.1 !! path with
  | Some found => load_texture path textures s = (s, Ok (textures ++ [found]))
  | None =>
      ∃ texture cs,
        load_texture path textures s
        = ((AssetModel.insert_texture path (length (heap s.2)) s.1,
            {| heap := heap s.2 ++ [texture];
               device :=
                 {| calls := calls (device s.2) ++ cs;
                    generated_vertex_arrays := generated_vertex_arrays (device s.2);
                    generated_buffers := generated_buffers (device s.2);
                    generated_textures := generated_textures (device s.2) + 1 |} |}),
           Ok (textures ++ [length (heap s.2)]))
        ∧ Texture2D.m_path texture = fs.join (AssetModel.m_parentdir s.1) path
        ∧ decoded_files cs = [fs.join (AssetModel.m_parentdir s.1) path]
  end.
Proof.
  destruct s as [this w]. cbn [fst snd].
  unfold AssetModel.load_texture.
  erewrite bind_Ok; [|reflexivity]. cbn [fst snd].
  destruct (AssetModel.m_loaded_textures this !! path) as [found|]; [done|].
  pose (object := Texture2D.new env (fs.join (AssetModel.m_parentdir this) path)).
  destruct (Texture2D_load_run env object (device w)) as (cs & Hload & Hfiles & _).
  exists (Texture2D.set_handle (generated_textures (device w) + 1) object), cs.
  split; [|done].
  erewrite bind_Ok; [|apply on_world_eq; reflexivity].
  erewrite bind_Ok; cycle 1.
  { apply on_world_eq. unfold arrow. cbn [fst snd heap device].
    rewrite list_lookup_middle by done.
    change (@texture_load _ (Texture2D_class env)) with (Texture2D.load env).
    change (texture_new (fs.join (AssetModel.m_parentdir this) path)) with object.
    rewrite Hload. cbn [fst snd]. reflexivity. }
  unfold bind, AssetModel.on_this, modify, ret. cbn [fst snd].
  rewrite insert_app_r_alt by done. rewrite Nat.sub_diag. reflexivity.
Qed.

Lemma load_texture_spec h0 c0 path textures s :
  cache_invariant h0 c0 s →
  ∃ s' p,
    load_texture path textures s = (s', Ok (textures ++ [p]))
    ∧ cache_invariant h0 c0 s'
    ∧ AssetModel.m_parentdir s'.1 = AssetModel.m_parentdir s.1
    ∧ AssetModel.m_loaded_textures s.1 ⊆ AssetModel.m_loaded_textures s'.1
    ∧ AssetModel.m_loaded_textures s'.1 !! path = Some p.
Proof.
  intros Hinv. pose proof Hinv as (Hh0 & Hc0 & Hcached & Hcreated & Hdecoded).
  pose proof (load_texture_run path textures s) as Hrun.
  destruct (AssetModel.m_loaded_textures s.1 !! path) as [found|] eqn:Hfind.
  { exists s, found. split; [done|]. split; [exact Hinv|]. done. }
  destruct Hrun as (texture & cs & Hrun & Hpath & Hfiles).
  eexists _, _. split; [exact Hrun|]. cbn [fst snd].
  split; [|split; [done|split; [by apply insert_subseteq|by apply lookup_insert_eq]]].
  unfold cache_invariant. cbn [fst snd heap device calls AssetModel.insert_texture
    AssetModel.m_loaded_textures AssetModel.m_parentdir].
  rewrite !length_app. cbn [length].
  split; [lia|]. split; [lia|]. split; [|split].
  - intros path' p. destruct (decide (path = path')) as [<-|Hne].
    + rewrite lookup_insert_eq. intros [= <-]. split; [done|].
      rewrite list_lookup_middle by done. cbn. by rewrite Hpath.
    + rewrite lookup_insert_ne by done. intros Hp.
      destruct (Hcached _ _ Hp) as [Hle Hobject]. split; [done|].
      rewrite lookup_app_l; [done|].
      apply fmap_Some in Hobject as (? & Hobject & _).
      by eapply lookup_lt_Some.
  - intros p Hp. destruct (decide (p = length (heap s.2))) as [->|Hne].
    + exists path. by apply lookup_insert_eq.
    + destruct (Hcreated p) as [path' Hp']; [lia|]. exists path'.
      rewrite lookup_insert_ne; [done|]. intros Heq. subst.
      pose proof (eq_trans (eq_sym Hfind) Hp') as Hcontra. discriminate Hcontra.
  - rewrite drop_app_le by done. rewrite decoded_files_app, Hdecoded, Hfiles.
    rewrite drop_app_le by done. rewrite fmap_app. cbn. by rewrite Hpath.
Qed.

Lemma load_textures_spec h0 c0 material type textures s :
  cache_invariant h0 c0 s →
  ∃ s' ps,
    load_textures material type textures s = (s', Ok (textures ++ ps))
    ∧ cache_invariant h0 c0 s'
    ∧ AssetModel.m_parentdir s'.1 = AssetModel.m_parentdir s.1
    ∧ AssetModel.m_loaded_textures s.1 ⊆ AssetModel.m_loaded_textures s'.1
    ∧ Forall2 (λ path p, AssetModel.m_loaded_textures s'.1 !! path = Some p)
        (material_textures material type) ps.
Proof.
  unfold AssetModel.load_textures.
  generalize (material_textures material type) as paths.
  intros paths. revert textures s.
  induction paths as [|path paths IH]; intros textures s Hinv.
  - exists s, []. rewrite app_nil_r. split; [done|]. split; [exact Hinv|]. done.
  - cbn [fold_each].
    destruct (load_texture_spec h0 c0 path textures s Hinv)
      as (s1 & p & Hrun & Hinv1 & Hdir1 & Hsub1 & Hp).
    destruct (IH (textures ++ [p]) s1 Hinv1) as (s' & ps & Hrun' & Hinv' & Hdir' & Hsub' & Hps).
    exists s', (p :: ps). split.
    { erewrite bind_Ok; [|exact Hrun]. rewrite Hrun'.
      by rewrite <- (assoc_L (++)). }
    split; [done|]. split; [congruence|].
    split; [by trans (AssetModel.m_loaded_textures s1.1)|].
    constructor; [|done]. by eapply lookup_weaken.
Qed.

Lemma collect_textures_spec h0 c0 raw_mesh scene s s1 textures :
  cache_invariant h0 c0 s →
  collect_textures raw_mesh scene s = (s1, Ok textures) →
  cache_invariant h0 c0 s1
  ∧ AssetModel.m_parentdir s1.1 = AssetModel.m_parentdir s.1
  ∧ AssetModel.m_loaded_textures s.1 ⊆ AssetModel.m_loaded_textures s1.1
  ∧ (∀ material,
       0 < mMaterialIndex raw_mesh →
       mMaterials scene !! N.to_nat (mMaterialIndex raw_mesh) = Some material →
       Forall2 (λ path p, AssetModel.m_loaded_textures s1.1 !! path = Some p)
         (material_textures material aiTextureType_DIFFUSE
          ++ material_textures material aiTextureType_SPECULAR) textures).
Proof.
  intros Hinv. unfold AssetModel.collect_textures.
  destruct (0 <? mMaterialIndex raw_mesh) eqn:Hindex.
  2: { intros [= <- <-]. split; [done|]. split; [done|]. split; [done|].
       intros material Hpos. apply N.ltb_ge in Hindex. lia. }
  destruct (mMaterials scene !! N.to_nat (mMaterialIndex raw_mesh))
    as [material|]; [|done].
  destruct (load_textures_spec h0 c0 material aiTextureType_DIFFUSE [] s Hinv)
    as (s2 & ps & Hrun2 & Hinv2 & Hdir2 & Hsub2 & Hps).
  destruct (load_textures_spec h0 c0 material aiTextureType_SPECULAR ([] ++ ps) s2 Hinv2)
    as (s3 & ps' & Hrun3 & Hinv3 & Hdir3 & Hsub3 & Hps').
  erewrite bind_Ok; [|exact Hrun2]. rewrite Hrun3. intros [= <- <-].
  split; [done|]. split; [congruence|].
  split; [by trans (AssetModel.m_loaded_textures s2.1)|].
  intros material' _ [= <-]. cbn [app] in *.
  apply Forall2_app.
  2: exact Hps'.
  eapply Forall2_impl; [exact Hps|]. intros path p Hp.
  exact (lookup_weaken _ _ _ _ Hp Hsub3).
Qed.

Lemma cached_textures_weaken scene cache cache' mesh_index mesh :
  cache ⊆ cache' →
  cached_textures scene cache mesh_index mesh →
  cached_textures scene cache' mesh_index mesh.
Proof.
  intros Hsub Hcached raw_mesh material Hraw Hpos Hmaterial.
  eapply Forall2_impl; [by eapply Hcached|].
  intros path p Hp. exact (lookup_weaken _ _ _ _ Hp Hsub).
Qed.

Lemma quiet_preserves_invariant h0 c0 this (w : World Texture2D.t) d cs :
  cache_invariant h0 c0 (this, w) →
  calls d = calls (device w) ++ cs → Forall quiet cs →
  cache_invariant h0 c0 (this, {| heap := heap w; device := d |}).
Proof.
  intros (Hh0 & Hc0 & Hcached & Hcreated & Hdecoded) Hcalls Hquiet.
  unfold cache_invariant in *. cbn [fst snd heap device] in *.
  rewrite Hcalls, length_app.
  split; [done|]. split; [lia|]. split; [done|]. split; [done|].
  rewrite drop_app_le by done.
  by rewrite decoded_files_app, (quiet_decoded_files cs), app_nil_r.
Qed.

Lemma process_node_mesh_spec h0 c0 scene mesh_index s s' :
  cache_invariant h0 c0 s →
  process_node_mesh scene mesh_index s = (s', Ok tt) →
  cache_invariant h0 c0 s'
  ∧ AssetModel.m_parentdir s'.1 = AssetModel.m_parentdir s.1
  ∧ AssetModel.m_loaded_textures s.1 ⊆ AssetModel.m_loaded_textures s'.1
  ∧ ∃ mesh, AssetModel.m_meshes s'.1 = AssetModel.m_meshes s.1 ++ [mesh]
            ∧ cached_textures scene (AssetModel.m_loaded_textures s'.1)
                mesh_index mesh.
Proof.
  intros Hinv. unfold AssetModel.process_node_mesh.
  destruct (scene_mMeshes scene !! N.to_nat mesh_index) as [raw_mesh|] eqn:Hraw;
    [|done].
  intros Hrun. apply bind_Ok_inv in Hrun as (s2 & mesh & Hmesh & [= <-]).
  pose proof (process_mesh_frame _ _ _ _ _ _ Hmesh) as (_ & _ & _ & Hmeshes).
  apply process_mesh_Ok in Hmesh
    as (s1 & cs & Hcollect & Hthis & Hheap & Hcalls & Hquiet & _).
  apply (collect_textures_spec h0 c0) in Hcollect
    as (Hinv1 & Hdir1 & Hsub1 & Hcached); [|done].
  destruct s1 as [this1 w1], s2 as [this2 [heap2 d2]].
  cbn [fst snd heap device] in *. subst this2 heap2.
  unfold AssetModel.push_mesh.
  cbn [fst snd AssetModel.m_meshes AssetModel.m_parentdir
       AssetModel.m_loaded_textures].
  split; [|split; [done|split; [done|]]].
  - eapply (quiet_preserves_invariant _ _ _ _ d2 cs) in Hinv1; [|done..].
    exact Hinv1.
  - exists mesh. split; [by rewrite Hmeshes|].
    intros raw_mesh' material Hraw' Hpos Hmaterial.
    rewrite Hraw in Hraw'. injection Hraw' as <-. by apply Hcached.
Qed.

Lemma for_each_mesh_spec h0 c0 scene (l : list N) s s' :
  cache_invariant h0 c0 s →
  for_each (process_node_mesh scene) l s = (s', Ok tt) →
  cache_invariant h0 c0 s'
  ∧ AssetModel.m_parentdir s'.1 = AssetModel.m_parentdir s.1
  ∧ AssetModel.m_loaded_textures s.1 ⊆ AssetModel.m_loaded_textures s'.1
  ∧ ∃ meshes, AssetModel.m_meshes s'.1 = AssetModel.m_meshes s.1 ++ meshes
              ∧ Forall2 (cached_textures scene (AssetModel.m_loaded_textures s'.1))
                  l meshes.
Proof.
  revert s. induction l as [|x l IH]; intros s Hinv.
  - intros [= <-]. split; [done|]. split; [done|]. split; [done|].
    exists []. by rewrite app_nil_r.
  - cbn [for_each]. intros Hrun.
    apply bind_Ok_inv in Hrun as (s1 & [] & Hx & Hl).
    apply (process_node_mesh_spec h0 c0) in Hx
      as (Hinv1 & Hdir1 & Hsub1 & mesh & Hmeshes1 & Hmesh); [|done].
    apply IH in Hl as (Hinv' & Hdir' & Hsub' & meshes & Hmeshes' & Hall); [|done].
    split; [done|]. split; [congruence|].
    split; [by trans (AssetModel.m_loaded_textures s1.1)|].
    exists (mesh :: meshes). split.
    + rewrite Hmeshes', Hmeshes1. by rewrite <- (assoc_L (++)).
    + constructor; [|done]. by eapply cached_textures_weaken.
Qed.

(** What a successful first [load] did: it logged the importer call and ran
    the mesh loop over the pre-order of the scene, then set the flag. *)
Lemma load_Ok_inv this (w : World Texture2D.t) s' scene root :
  AssetModel.m_loaded this = false →
  imported env (AssetModel.m_path this) = Some (scene, root) →
  AssetModel.load (TC := Texture2D_class env) L env (this, w) = (s', Ok tt) →
  ∃ s1,
    for_each (process_node_mesh scene) (preorder root)
      (this, world_logged w
               [Importer_ReadFile (AssetModel.m_path this)
                  (N.lor aiProcess_Triangulate aiProcess_FlipUVs)])
    = (s1, Ok tt)
    ∧ s' = (AssetModel.set_loaded true s1.1, s1.2).
Proof.
  intros Hloaded Himported. unfold AssetModel.load.
  erewrite bind_Ok; [|reflexivity]. cbn [fst]. rewrite Hloaded. cbn [negb].
  intros Hrun. apply bind_Ok_inv in Hrun as (s1 & [] & Hmodel & [= <-]).
  exists s1. split; [|done].
  unfold AssetModel.load_model in Hmodel.
  erewrite bind_Ok in Hmodel; [|reflexivity]. cbn [fst] in Hmodel.
  erewrite bind_Ok in Hmodel;
    [|apply on_world_eq, on_device_logged, log_logged].
  unfold imported in Himported.
  destruct (ReadFile env _ _) as [scene'|]; [|done].
  destruct (mFlags scene' =? AI_SCENE_FLAGS_INCOMPLETE); [done|].
  destruct (mRootNode scene') as [root'|]; [|done].
  injection Himported as -> ->.
  by rewrite process_node_for_each in Hmodel.
Qed.

(** Every object created since the traversal began is the cache entry of
    its path. *)
Lemma created_object_cached h0 c0 s q texture path :
  cache_invariant h0 c0 s →
  (h0 ≤ q)%nat → heap s.2 !! q = Some texture →
  Texture2D.m_path texture = fs.join (AssetModel.m_parentdir s.1) path →
  AssetModel.m_loaded_textures s.1 !! path = Some q.
Proof.
  intros (_ & _ & Hcached & Hcreated & _) Hq Hobject Hpath.
  destruct (Hcreated q) as [path' Hpath'].
  { split; [done|]. by eapply lookup_lt_Some. }
  destruct (Hcached _ _ Hpath') as [_ Hobject'].
  rewrite Hobject in Hobject'. injection Hobject' as Hsame.
  rewrite Hpath in Hsame. apply join_inj in Hsame. by subst.
Qed.

(** The pointer a mesh holds for a texture path of its material. *)
Lemma cached_textures_elem scene cache mesh_index mesh texture_path :
  cached_textures scene cache mesh_index mesh →
  references scene mesh_index texture_path →
  material_index_positive scene mesh_index →
  ∃ p, p ∈ Mesh.m_textures mesh ∧ cache !! texture_path = Some p.
Proof.
  intros Hcached (raw_mesh & material & Hraw & Hmaterial & Hpath) Hpositive.
  specialize (Hcached raw_mesh material Hraw (Hpositive _ Hraw) Hmaterial).
  apply list_elem_of_lookup in Hpath as [k Hk].
  destruct (Forall2_lookup_l _ _ _ _ _ Hcached Hk) as (p & Hp & Hhit).
  exists p. split; [|done]. by eapply list_elem_of_lookup_2.
Qed.

(** C2 (as the code has it): when two distinct sub-meshes with a material
    index above 0 reference the same texture path, the load creates one
    texture object for that path and decodes its image once; the meshes of
    both sub-meshes hold the same pointer, which is the cache entry of the
    path.  The cache never maps two paths to one object, and no two objects
    created by the load carry the same path. *)
Theorem shared_texture_loaded_once (path : string) (w : World Texture2D.t) s'
    (scene : aiScene) (root : aiNode) (i j : nat) (mesh_index_i mesh_index_j : N)
    (texture_path : string) :
  imported env path = Some (scene, root) →
  AssetModel.load (TC := Texture2D_class env) L env (AssetModel.new path, w)
    = (s', Ok tt) →
  i ≠ j →
  preorder root !! i = Some mesh_index_i →
  preorder root !! j = Some mesh_index_j →
  references scene mesh_index_i texture_path →
  references scene mesh_index_j texture_path →
  material_index_positive scene mesh_index_i →
  material_index_positive scene mesh_index_j →
  shared_once path texture_path i j w s' ∧ one_texture_per_path w s'.
Proof.
  intros Himported Hload _ Hi Hj Hrefi Hrefj Hposi Hposj.
  apply (load_Ok_inv _ _ _ scene root) in Hload as (s1 & Hrun & ->);
    [|done|done].
  set (h0 := length (heap w)). set (c0 := length (calls (device w))).
  apply (for_each_mesh_spec h0 c0) in Hrun
    as (Hinv & Hdir & _ & meshes & Hmeshes & Hall).
  2: { unfold cache_invariant. cbn. rewrite length_app. subst h0 c0.
       split; [lia|]. split; [lia|].
       split; [intros ? ? Hempty; by rewrite lookup_empty in Hempty|].
       split; [intros p; lia|].
       by rewrite drop_app_length, drop_all. }
  cbn in Hdir, Hmeshes.
  destruct (Forall2_lookup_l _ _ _ _ _ Hall Hi) as (mesh_i & Hmesh_i & Hcached_i).
  destruct (Forall2_lookup_l _ _ _ _ _ Hall Hj) as (mesh_j & Hmesh_j & Hcached_j).
  destruct (cached_textures_elem _ _ _ _ _ Hcached_i Hrefi Hposi) as (p & Hpi & Hp).
  destruct (cached_textures_elem _ _ _ _ _ Hcached_j Hrefj Hposj) as (p' & Hpj & Hp').
  assert (p' = p) as -> by congruence.
  pose proof Hinv as (Hh0 & Hc0 & Hcached & Hcreated & Hdecoded).
  destruct (Hcached _ _ Hp) as [Hle Hobject].
  apply fmap_Some in Hobject as (texture & Hobject & Hfile).
  symmetry in Hfile. rewrite Hdir in Hfile.
  assert (∀ k t, drop h0 (heap s1.2) !! k = Some t →
            Texture2D.m_path t = fs.join (fs.dirname path) texture_path →
            k = (p - h0)%nat) as Hunique.
  { intros k t Hk Ht. rewrite lookup_drop in Hk.
    rewrite <- Hdir in Ht.
    assert (h0 ≤ h0 + k)%nat as Hge by lia.
    pose proof (created_object_cached _ _ _ _ _ _ Hinv Hge Hk Ht) as Hk'.
    pose proof (eq_trans (eq_sym Hk') Hp) as [= Hsame]. lia. }
  assert (drop h0 (heap s1.2) !! (p - h0)%nat = Some texture) as Hnew.
  { rewrite lookup_drop. by replace (h0 + (p - h0))%nat with p by lia. }
  split.
  - unfold shared_once. cbv zeta.
    cbn [fst snd AssetModel.set_loaded AssetModel.m_meshes
         AssetModel.m_loaded_textures].
    exists mesh_i, mesh_j, p, texture. rewrite Hmeshes.
    split; [done|]. split; [done|]. split; [done|]. split; [done|].
    split; [done|]. split; [done|]. split; [done|]. split.
    + by eapply filter_unique.
    + unfold new_calls. fold c0. rewrite Hdecoded.
      eapply (filter_unique _ _ (p - h0)%nat).
      * rewrite list_lookup_fmap, Hnew. cbn. by rewrite Hfile.
      * done.
      * intros k f Hk ->. rewrite list_lookup_fmap in Hk.
        apply fmap_Some in Hk as (t & Hk & Ht). by eapply Hunique.
  - unfold one_texture_per_path. cbn [fst snd AssetModel.set_loaded
      AssetModel.m_loaded_textures]. split.
    + intros path1 path2 q Hq1 Hq2.
      destruct (Hcached _ _ Hq1) as [_ Hobject1].
      destruct (Hcached _ _ Hq2) as [_ Hobject2].
      rewrite Hobject1 in Hobject2. injection Hobject2 as Hsame.
      by apply join_inj in Hsame.
    + fold h0. apply NoDup_alt. intros k1 k2 f Hk1 Hk2.
      rewrite list_lookup_fmap in Hk1, Hk2.
      apply fmap_Some in Hk1 as (t1 & Hk1 & Ht1).
      apply fmap_Some in Hk2 as (t2 & Hk2 & Ht2).
      rewrite lookup_drop in Hk1, Hk2.
      destruct (Hcreated (h0 + k1)%nat) as [path1 Hpath1].
      { split; [lia|]. by eapply lookup_lt_Some. }
      destruct (Hcached _ _ Hpath1) as [_ Hobject1].
      rewrite Hk1 in Hobject1. injection Hobject1 as Hfile1.
      assert (Texture2D.m_path t2
              = fs.join (AssetModel.m_parentdir s1.1) path1) as Hfile2 by congruence.
      assert (h0 ≤ h0 + k2)%nat as Hge by lia.
      pose proof (created_object_cached _ _ _ _ _ _ Hinv Hge Hk2 Hfile2) as Hpath2.
      pose proof (eq_trans (eq_sym Hpath1) Hpath2) as [= Hsame]. lia.
Qed.
End Texture2D_cache.

Lemma crate_references_wood :
  references crate_scene 0 "wood.png" ∧ references crate_scene 1 "wood.png"
  ∧ material_index_positive crate_scene 0 ∧ material_index_positive crate_scene 1.
Proof.
  split; [|split; [|split]].
  - exists lid, wood_material. repeat split. by left.
  - exists side, varnished_material. repeat split. by left.
  - by intros raw_mesh [= <-].
  - by intros raw_mesh [= <-].
Qed.

Lemma shared_texture_loaded_once_witness :
  shared_once "assets/crate.obj" "wood.png" 0 1 fresh_world loaded_crate
  ∧ one_texture_per_path fresh_world loaded_crate.
Proof.
  destruct crate_references_wood as (Href0 & Href1 & Hpos0 & Hpos1).
  assert (AssetModel.load (TC := Texture2D_class crate_env) DefaultVertex crate_env
            (AssetModel.new "assets/crate.obj", fresh_world)
          = (loaded_crate, Ok tt)) as Hload by (vm_compute; reflexivity).
  exact (shared_texture_loaded_once DefaultVertex crate_env "assets/crate.obj"
           fresh_world loaded_crate crate_scene (Node [0; 1] [Node [2] []])
           0 1 0 1 "wood.png" eq_refl Hload ltac:(lia) eq_refl eq_refl
           Href0 Href1 Hpos0 Hpos1).
Defined.

(** C2 as stated fails: two sub-meshes that both use material 0, which
    lists "stone.png", get no texture at all. *)
Lemma material_zero_is_not_shared :
  ¬ deduplicates (V := DefaultVertexData) DefaultVertex crate_env
      "assets/stones.obj" fresh_world.
Proof.
  intros Hclaim.
  pose (s' := (AssetModel.load (TC := Texture2D_class crate_env) DefaultVertex
                 crate_env (AssetModel.new "assets/stones.obj", fresh_world)).1).
  assert (AssetModel.load (TC := Texture2D_class crate_env) DefaultVertex crate_env
            (AssetModel.new "assets/stones.obj", fresh_world) = (s', Ok tt)) as Hload
    by (vm_compute; reflexivity).
  assert (references stones_scene 0 "stone.png") as Href0.
  { exists pedestal, stone_material. repeat split. by left. }
  assert (references stones_scene 1 "stone.png") as Href1.
  { exists pedestal, stone_material. repeat split. by left. }
  destruct (Hclaim s' stones_scene (Node [0; 1] []) 0%nat 1%nat 0 1 "stone.png"
              eq_refl Hload ltac:(lia) eq_refl eq_refl Href0 Href1)
    as (mesh_i & _ & p & _ & Hmesh_i & _ & Hp & _).
  vm_compute in Hmesh_i. injection Hmesh_i as <-.
  by apply elem_of_nil in Hp.
Qed.

(** ** models.h: RawModel *)

Section RawModel_facts.
Context {V : Type} {VD : VertexData V}.
Context (L : Vertex) (env : Environment).



End RawModel_facts.


Example RawModel_equal_paths :
  let r := RawModel.new (VD := GLfloat_data) (TC := Texture2D_class crate_env)
             DefaultVertex quad_vertices quad_indices quad_textures fresh_world in
  ∃ this mesh,
    r.2 = Ok this
    ∧ RawModel.m_meshes this = [mesh]
    ∧ Mesh.m_vertex_count mesh = 32
    ∧ Mesh.m_index_count mesh = 6
    ∧ Mesh.m_textures mesh = [0; 1]%nat
    ∧ Texture2D.m_path <$> heap r.1 = ["wall.png"; "wall.png"]
    ∧ decoded_files (calls (device r.1)) = ["wall.png"; "wall.png"].
Proof. vm_compute. eexists _, _. repeat split. Qed.

(** * Further properties *)

(** ** utils.h *)

Lemma string_length_app a b :
  String.length (a +:+ b) = (String.length a + String.length b)%nat.
Proof. induction a as [|c a IH]; simpl; [done | by rewrite IH]. Qed.

Lemma substring_whole s : String.substring 0 (String.length s) s = s.
Proof. induction s as [|c s IH]; simpl; [done | by rewrite IH]. Qed.

Lemma substring_prefix a b : String.substring 0 (String.length a) (a +:+ b) = a.
Proof.
  induction a as [|c a IH]; simpl; [by destruct b | by rewrite IH].
Qed.

Lemma substring_after a c b n :
  n = String.length b →
  String.substring (S (String.length a)) n (a +:+ String c b) = b.
Proof.
  intros ->. induction a as [|c' a IH]; simpl; [apply substring_whole | exact IH].
Qed.

Lemma find_last_of_from_None pos delims s :
  contains_any delims s = false → fs.find_last_of_from pos delims s = None.
Proof.
  revert pos. induction s as [|c s IH]; intros pos; simpl; [done|].
  intros [Hc Hs]%orb_false_elim. by rewrite IH, Hc.
Qed.

Lemma find_last_of_from_split pos delims a c b :
  fs.char_in c delims = true → contains_any delims b = false →
  fs.find_last_of_from pos delims (a +:+ String c b)
  = Some (pos + String.length a)%nat.
Proof.
  intros Hc Hb. revert pos. induction a as [|c' a IH]; intros pos; simpl.
  - rewrite find_last_of_from_None, Hc by done. f_equal. lia.
  - rewrite IH. f_equal. lia.
Qed.

Lemma find_last_of_from_Some pos delims s p :
  fs.find_last_of_from pos delims s = Some p →
  ∃ a c b, s = a +:+ String c b ∧ p = (pos + String.length a)%nat
           ∧ fs.char_in c delims = true ∧ contains_any delims b = false.
Proof.
  revert pos. induction s as [|c s IH]; intros pos; simpl; [done|].
  destruct (fs.find_last_of_from (S pos) delims s) as [q|] eqn:Hs.
  - intros [= <-]. apply IH in Hs as (a & c' & b & -> & -> & Hc' & Hb).
    exists (String c a), c', b. simpl. repeat split; [lia | done..].
  - destruct (fs.char_in c delims) eqn:Hc; [|done]. intros [= <-].
    exists EmptyString, c, s. simpl. repeat split; [lia | done |].
    destruct (contains_any delims s) eqn:Hany; [|done].
    exfalso. clear IH Hc. revert pos Hs.
    induction s as [|c' s IH]; intros pos; simpl in *; [done|].
    destruct (fs.find_last_of_from (S (S pos)) delims s) eqn:Hs'; [done|].
    destruct (fs.char_in c' delims); [done|]. simpl in Hany.
    intros _. by eapply IH.
Qed.

Lemma contains_any_find pos delims s :
  contains_any delims s = true → is_Some (fs.find_last_of_from pos delims s).
Proof.
  revert pos. induction s as [|c s IH]; intros pos; simpl; [done|].
  intros [Hc|Hs]%orb_prop.
  - rewrite Hc. by destruct (fs.find_last_of_from (S pos) delims s).
  - destruct (IH (S pos) Hs) as [p ->]. done.
Qed.

Lemma join_split base path :
  contains_any fs.default_delims path = false →
  fs.find_last_of (fs.join base path) fs.default_delims
  = Some (String.length base).
Proof.
  intros Hpath. unfold fs.find_last_of, fs.join.
  by rewrite (find_last_of_from_split 0 _ base _ path).
Qed.

Lemma basename_join base path :
  contains_any fs.default_delims path = false →
  fs.basename (fs.join base path) = path.
Proof.
  intros Hpath. unfold fs.basename. rewrite join_split by done.
  apply substring_after. unfold fs.join. rewrite string_length_app. simpl. lia.
Qed.

(** X1: A path joined to a directory splits back into the two: when [path]
    holds no delimiter, [dirname] of the joined path is the base and
    [basename] is the path. *)
Theorem join_dirname_basename (base path : string) :
  contains_any fs.default_delims path = false →
  fs.dirname (fs.join base path) = base
  ∧ fs.basename (fs.join base path) = path.
Proof.
  intros Hpath. split; [|by apply basename_join].
  unfold fs.dirname. rewrite join_split by done. apply substring_prefix.
Qed.

Lemma join_dirname_basename_witness :
  contains_any fs.default_delims "wood.png" = false
  ∧ fs.dirname (fs.join "assets/crate" "wood.png") = "assets/crate"
  ∧ fs.basename (fs.join "assets/crate" "wood.png") = "wood.png".
Proof.
  split; [reflexivity|].
  exact (join_dirname_basename "assets/crate" "wood.png" eq_refl).
Defined.

(** X2: [dirname] and [basename] cut a path at its last delimiter: [basename]
    never holds a delimiter; a path with a delimiter is its [dirname], that
    delimiter and its [basename]; a path without delimiter is returned whole
    by both (so [dirname "crate.obj"] is "crate.obj", not a directory). *)
Theorem dirname_basename_split (path : string) :
  contains_any fs.default_delims (fs.basename path) = false
  ∧ if contains_any fs.default_delims path
    then ∃ c, fs.char_in c fs.default_delims = true
              ∧ path = fs.dirname path +:+ String c (fs.basename path)
    else fs.dirname path = path ∧ fs.basename path = path.
Proof.
  unfold fs.dirname, fs.basename, fs.find_last_of.
  destruct (contains_any fs.default_delims path) eqn:Hany.
  - destruct (contains_any_find 0 _ _ Hany) as [p Hp]. rewrite Hp.
    apply find_last_of_from_Some in Hp as (a & c & b & -> & -> & Hc & Hb).
    cbn [Nat.add].
    assert (String.substring (S (String.length a))
              (String.length (a +:+ String c b) - S (String.length a))
              (a +:+ String c b) = b) as ->.
    { apply substring_after. rewrite string_length_app. simpl. lia. }
    split; [done|]. exists c. by rewrite substring_prefix.
  - by rewrite find_last_of_from_None.
Qed.

Lemma noextension_stem stem ext :
  stem ≠ EmptyString → contains_any dot ext = false →
  fs.noextension (stem +:+ String "." ext) = stem.
Proof.
  intros Hstem Hext. unfold fs.noextension, fs.find_last_of. fold dot.
  rewrite (find_last_of_from_split 0 dot stem "." ext) by done.
  cbn [Nat.add]. destruct stem as [|c stem]; [done|].
  cbn [String.length Nat.ltb Nat.leb].
  apply (substring_prefix (String c stem)).
Qed.

(** X3: [noextension] cuts a file name at its last dot: "stem.ext" gives "stem"
    when the stem is not empty; a name without dot, and a name whose only
    dot is its first character, come back unchanged. *)
Theorem noextension_cases :
  (∀ stem ext, stem ≠ EmptyString → contains_any dot ext = false →
     fs.noextension (stem +:+ String "." ext) = stem)
  ∧ (∀ filename, contains_any dot filename = false →
       fs.noextension filename = filename)
  ∧ (∀ rest, contains_any dot rest = false →
       fs.noextension (String "." rest) = String "." rest).
Proof.
  split; [apply noextension_stem|].
  unfold fs.noextension, fs.find_last_of. fold dot. split.
  - intros filename Hdot. by rewrite find_last_of_from_None.
  - intros rest Hdot.
    pose proof (find_last_of_from_split 0 dot EmptyString "." rest eq_refl Hdot)
      as Hfind.
    change (EmptyString +:+ String "." rest) with (String "." rest) in Hfind.
    by rewrite Hfind.
Qed.

Lemma noextension_cases_witness :
  fs.noextension "wood.diffuse.png" = "wood.diffuse"
  ∧ fs.noextension "Makefile" = "Makefile"
  ∧ fs.noextension ".hidden" = ".hidden".
Proof.
  split; [|split].
  - exact (proj1 noextension_cases "wood.diffuse" "png" ltac:(discriminate) eq_refl).
  - exact (proj1 (proj2 noextension_cases) "Makefile" eq_refl).
  - exact (proj2 (proj2 noextension_cases) "hidden" eq_refl).
Defined.

(** ** textures.h *)

(** X4: A texture constructed from a path alone is named after its file: for
    "dir/stem.ext" the shader name is "stem".  The path and the null handle
    are stored as given. *)
Theorem Texture2D_default_name (env : Environment) (dir stem ext : string) :
  stem ≠ EmptyString →
  contains_any fs.default_delims (stem +:+ String "." ext) = false →
  contains_any dot ext = false →
  let texture := Texture2D.new env (fs.join dir (stem +:+ String "." ext)) in
  Texture2D.get_name texture = stem
  ∧ Texture2D.m_path texture = fs.join dir (stem +:+ String "." ext)
  ∧ Texture2D.get_handle texture = 0.
Proof.
  intros Hstem Hfile Hext texture. split; [|done].
  unfold texture, Texture2D.get_name, Texture2D.new, Texture2D.new_with.
  cbn [Texture2D.m_name]. rewrite decide_True by done.
  rewrite basename_join by done. by apply noextension_stem.
Qed.

Lemma Texture2D_default_name_witness :
  Texture2D.get_name (Texture2D.new crate_env (fs.join "assets" "wood.png")) = "wood".
Proof.
  exact (proj1 (Texture2D_default_name crate_env "assets" "wood" "png"
                  ltac:(discriminate) eq_refl eq_refl)).
Defined.

Lemma gl_bindings_app b cs1 cs2 :
  gl_bindings b (cs1 ++ cs2) = gl_bindings (gl_bindings b cs1) cs2.
Proof. apply foldl_app. Qed.

Lemma gl_bindings_selects_nothing b cs :
  Forall selects_nothing cs → gl_bindings b cs = b.
Proof.
  induction 1 as [|c cs Hc _ IH]; [done|].
  cbn [gl_bindings foldl]. fold (gl_bindings (gl_step b c) cs).
  replace (gl_step b c) with b by (by destruct c). exact IH.
Qed.

Lemma Texture2D_load_calls_run env (this : Texture2D.t) (d : Device) :
  Texture2D.load env (this, d)
  = ((Texture2D.set_handle (generated_textures d + 1) this,
      {| calls := calls d ++ Texture2D_load_calls env this (generated_textures d + 1);
         generated_vertex_arrays := generated_vertex_arrays d;
         generated_buffers := generated_buffers d;
         generated_textures := generated_textures d + 1 |}), Ok tt).
Proof.
  unfold Texture2D.load, Texture2D.on_device, zoom, bind, get, modify, log,
    gen_texture, ret, Texture2D_load_calls.
  cbn. destruct (Texture2D.m_generate_mipmap this); cbn;
    rewrite <- !(assoc_L (++)); reflexivity.
Qed.

(** X5: [load] never throws, also when the image cannot be decoded (the null
    image is uploaded).  It takes a fresh texture name, decodes and frees
    the image once, and leaves the active texture unit without a texture,
    whatever was bound there before; no other binding changes. *)
Theorem Texture2D_load_effect (env : Environment) (this : Texture2D.t)
    (d : Device) (b : Bindings) :
  let h := generated_textures d + 1 in
  let cs := Texture2D_load_calls env this h in
  Texture2D.load env (this, d)
  = ((Texture2D.set_handle h this,
      {| calls := calls d ++ cs;
         generated_vertex_arrays := generated_vertex_arrays d;
         generated_buffers := generated_buffers d;
         generated_textures := h |}), Ok tt)
  ∧ h ≠ 0
  ∧ decoded_files cs = [Texture2D.m_path this]
  ∧ length (filter is_free_image cs) = 1%nat
  ∧ gl_bindings b cs
    = {| vertex_array_binding := vertex_array_binding b;
         array_buffer_binding := array_buffer_binding b;
         active_texture := active_texture b;
         texture_bindings := delete (active_texture b) (texture_bindings b) |}.
Proof.
  intros h cs. split; [apply Texture2D_load_calls_run|]. split; [lia|].
  assert ((h =? 0) = false) as Hh by (apply N.eqb_neq; lia).
  unfold cs, Texture2D_load_calls.
  destruct (Texture2D.m_generate_mipmap this);
    (split; [reflexivity|]); (split; [reflexivity|]);
    cbn; rewrite Hh; cbn; by rewrite delete_insert_eq.
Qed.

(** ** meshes.h *)

Lemma layout_calls_select_nothing stride attrs :
  Forall selects_nothing (layout_calls stride attrs).
Proof.
  apply Forall_forall. intros c Hc. unfold layout_calls in Hc.
  apply list_elem_of_join in Hc as (cs & Hc & Hcs).
  apply elem_of_lookup_imap in Hcs as (k & a & -> & _).
  unfold install_calls in Hc.
  apply list_elem_of_In in Hc. simpl in Hc. destruct Hc as [<-|[<-|[]]]; done.
Qed.

(** X6: The constructor never throws.  It uploads the vertex data, and the
    index data only when there are indices (otherwise [m_ebo] stays 0 and no
    element buffer is generated); it installs the layout while its vertex
    array is bound and unbinds the vertex array at the end.  The vertex
    buffer is left bound to [GL_ARRAY_BUFFER]; texture bindings are not
    touched. *)
Theorem Mesh_new_effect {V} {VD : VertexData V} (L : Vertex) (vertices : list V)
    (indices : list GLuint) (textures : texture_vec) (d : Device) (b : Bindings) :
  let vao := generated_vertex_arrays d + 1 in
  let vbo := generated_buffers d + 1 in
  let ebo := if decide (indices = []) then 0 else generated_buffers d + 2 in
  let cs := Mesh_new_calls L sizeof_vertex_data (N.of_nat (length vertices))
              (N.of_nat (length indices)) vao vbo ebo in
  Mesh.new L vertices indices textures d
  = ({| calls := calls d ++ cs;
        generated_vertex_arrays := vao;
        generated_buffers := if decide (indices = []) then vbo else ebo;
        generated_textures := generated_textures d |},
     Ok {| Mesh.m_vao := vao; Mesh.m_vbo := vbo; Mesh.m_ebo := ebo;
           Mesh.m_vertex_count := N.of_nat (length vertices);
           Mesh.m_index_count := N.of_nat (length indices);
           Mesh.m_textures := textures |})
  ∧ last cs = Some (glBindVertexArray 0)
  ∧ gl_bindings b cs
    = {| vertex_array_binding := 0;
         array_buffer_binding := vbo;
         active_texture := active_texture b;
         texture_bindings := texture_bindings b |}.
Proof.
  intros vao vbo ebo cs.
  assert ((0 <? N.of_nat (length indices)) = negb (bool_decide (indices = [])))
    as Hcount by (by destruct indices).
  split; [|split].
  - unfold Mesh.new, cs, Mesh_new_calls, ebo, vbo, vao. rewrite Hcount.
    destruct indices as [|i indices]; cbn [bool_decide negb];
      [rewrite decide_True by done | rewrite decide_False by done].
    + rewrite bool_decide_eq_true_2 by done. cbn [negb].
      unfold bind at 1 2 3 4 5 6. cbn -[add_each size_t N.mul].
      unfold bind at 1. rewrite add_each_run.
      unfold bind, log, modify, ret, logged. cbn -[size_t N.mul layout_calls].
      rewrite <- !(assoc_L (++)). reflexivity.
    + rewrite bool_decide_eq_false_2 by done. cbn [negb].
      unfold bind at 1 2 3 4 5 6. cbn -[add_each size_t N.mul].
      unfold bind at 1. rewrite add_each_run.
      unfold bind, log, modify, ret, logged. cbn -[size_t N.mul layout_calls].
      rewrite <- !(assoc_L (++)). cbn -[size_t N.mul layout_calls].
      replace (generated_buffers d + 1 + 1) with (generated_buffers d + 2) by lia.
      reflexivity.
  - unfold cs, Mesh_new_calls. rewrite !(assoc_L (++)). apply last_snoc.
  - unfold cs, Mesh_new_calls. rewrite !gl_bindings_app.
    rewrite (gl_bindings_selects_nothing _ (layout_calls _ _))
      by apply layout_calls_select_nothing.
    destruct (0 <? N.of_nat (length indices)); reflexivity.
Qed.

Lemma gl_bindings_bind_calls env program objects i p b :
  let b' := gl_bindings b (bind_calls env program objects i p) in
  vertex_array_binding b' = vertex_array_binding b
  ∧ array_buffer_binding b' = array_buffer_binding b
  ∧ ∀ u, u ≠ texture_unit i → texture_bindings b' !! u = texture_bindings b !! u.
Proof.
  unfold bind_calls. destruct (objects !! p) as [texture|]; [|done].
  cbn [gl_bindings foldl gl_step]. rewrite N.eqb_refl.
  cbn [vertex_array_binding array_buffer_binding active_texture texture_bindings].
  split; [done|]. split; [done|]. intros u Hu.
  destruct (Texture2D.m_handle texture =? 0);
    [by rewrite lookup_delete_ne | by rewrite lookup_insert_ne].
Qed.

Lemma gl_bindings_bind_phase env program objects textures n b :
  let b' := gl_bindings b
              (mjoin (imap (λ i, bind_calls env program objects (n + i)) textures)) in
  vertex_array_binding b' = vertex_array_binding b
  ∧ array_buffer_binding b' = array_buffer_binding b
  ∧ ∀ u, u ∉ texture_unit <$> seq n (length textures) →
         texture_bindings b' !! u = texture_bindings b !! u.
Proof.
  revert n b. induction textures as [|p textures IH]; intros n b; [done|].
  rewrite imap_cons.
  change (mjoin (?x :: ?l)) with (x ++ mjoin l).
  rewrite gl_bindings_app.
  erewrite (imap_ext _ (λ i, bind_calls env program objects (S n + i))); cycle 1.
  { intros i x _. cbn. by rewrite Nat.add_succ_r. }
  rewrite Nat.add_0_r.
  destruct (gl_bindings_bind_calls env program objects n p b)
    as (Hvao1 & Hbuffer1 & Hunits1).
  destruct (IH (S n) (gl_bindings b (bind_calls env program objects n p)))
    as (Hvao & Hbuffer & Hunits).
  cbv zeta. rewrite Hvao, Hbuffer. split; [done|]. split; [done|].
  cbn [length seq fmap list_fmap]. intros u Hu.
  apply not_elem_of_cons in Hu as [Hu1 Hu2].
  rewrite Hunits by done. by apply Hunits1.
Qed.

Lemma gl_bindings_unbind_phase textures n b :
  let b' := gl_bindings b (mjoin (imap (λ i, unbind_calls (n + i)) textures)) in
  vertex_array_binding b' = vertex_array_binding b
  ∧ array_buffer_binding b' = array_buffer_binding b
  ∧ ∀ u, texture_bindings b' !! u
         = if decide (u ∈ texture_unit <$> seq n (length textures))
           then None else texture_bindings b !! u.
Proof.
  revert n b. induction textures as [|p textures IH]; intros n b.
  { split; [done|]. split; [done|]. intros u. rewrite decide_False; [done|].
    apply not_elem_of_nil. }
  rewrite imap_cons.
  change (mjoin (?x :: ?l)) with (x ++ mjoin l).
  rewrite gl_bindings_app.
  erewrite (imap_ext _ (λ i, unbind_calls (S n + i))); cycle 1.
  { intros i x _. cbn. by rewrite Nat.add_succ_r. }
  rewrite Nat.add_0_r.
  destruct (IH (S n) (gl_bindings b (unbind_calls n p))) as (Hvao & Hbuffer & Hunits).
  cbv zeta. rewrite Hvao, Hbuffer. split; [done|]. split; [done|].
  intros u. rewrite Hunits. cbn [length seq fmap list_fmap].
  unfold unbind_calls. cbn [gl_bindings foldl gl_step]. rewrite N.eqb_refl.
  cbn [N.eqb texture_bindings active_texture].
  destruct (decide (u = texture_unit n)) as [->|Hne].
  - rewrite lookup_delete_eq.
    assert (texture_unit n
            ∈ texture_unit n :: (texture_unit <$> seq (S n) (length textures)))
      by (apply elem_of_cons; by left).
    repeat case_decide; done.
  - rewrite lookup_delete_ne by done.
    assert (u ∈ texture_unit n :: (texture_unit <$> seq (S n) (length textures))
            ↔ u ∈ texture_unit <$> seq (S n) (length textures)) as Hiff.
    { rewrite elem_of_cons. tauto. }
    repeat case_decide; tauto.
Qed.

(** X7: [render] leaves no texture and no vertex array bound: when it returns,
    the vertex array binding is 0 and every texture unit it used has no
    texture, whatever was bound there before; the other units and the array
    buffer binding are as they were. *)
Theorem Mesh_render_leaves_nothing_bound (env : Environment) (mesh : Mesh.t)
    (program : GLSLProgram.t) (w : World Texture2D.t) (b : Bindings) :
  valid_pointers w (Mesh.m_textures mesh) →
  ∃ w',
    Mesh.render (TC := Texture2D_class env) env mesh program w = (w', Ok tt)
    ∧ heap w' = heap w
    ∧ let b' := gl_bindings b (new_calls (device w) (device w')) in
      vertex_array_binding b' = 0
      ∧ array_buffer_binding b' = array_buffer_binding b
      ∧ ∀ u, texture_bindings b' !! u
             = if decide (u ∈ texture_unit
                                <$> seq 0 (length (Mesh.m_textures mesh)))
               then None else texture_bindings b !! u.
Proof.
  intros Hvalid. eexists. split; [by apply Mesh_render_run|].
  split; [done|]. cbn [world_logged device]. rewrite new_calls_logged.
  unfold render_calls. rewrite !gl_bindings_app.
  destruct (gl_bindings_bind_phase env program (heap w) (Mesh.m_textures mesh) 0 b)
    as (Hvao1 & Hbuffer1 & Hunits1).
  cbn [Nat.add] in Hvao1, Hbuffer1, Hunits1.
  change (λ i : nat, bind_calls env program (heap w) i)
    with (bind_calls env program (heap w)) in Hvao1, Hbuffer1, Hunits1.
  set (b1 := gl_bindings b (mjoin (imap (bind_calls env program (heap w))
                                     (Mesh.m_textures mesh)))) in *.
  set (b2 := gl_bindings b1 [glBindVertexArray (Mesh.m_vao mesh); draw_call mesh;
                             glBindVertexArray 0]).
  assert (vertex_array_binding b2 = 0
          ∧ array_buffer_binding b2 = array_buffer_binding b1
          ∧ texture_bindings b2 = texture_bindings b1) as (Hvao2 & Hbuffer2 & Hunits2).
  { unfold b2, draw_call. by destruct (0 <? Mesh.m_index_count mesh). }
  destruct (gl_bindings_unbind_phase (Mesh.m_textures mesh) 0 b2)
    as (Hvao3 & Hbuffer3 & Hunits3).
  cbn [Nat.add] in Hvao3, Hbuffer3, Hunits3.
  change (λ i : nat, unbind_calls i) with unbind_calls in Hvao3, Hbuffer3, Hunits3.
  cbv zeta. rewrite Hvao3, Hbuffer3, Hvao2, Hbuffer2, Hbuffer1.
  split; [done|]. split; [done|]. intros u. rewrite Hunits3, Hunits2.
  case_decide; [done|]. by apply Hunits1.
Qed.

Lemma Mesh_render_leaves_nothing_bound_witness :
  let mesh := {| Mesh.m_vao := 1; Mesh.m_vbo := 1; Mesh.m_ebo := 2;
                 Mesh.m_vertex_count := 4; Mesh.m_index_count := 6;
                 Mesh.m_textures := [0; 1]%nat |} in
  valid_pointers loaded_crate.2 [0; 1]%nat
  ∧ ∃ w',
      Mesh.render (TC := Texture2D_class crate_env) crate_env mesh some_program
        loaded_crate.2 = (w', Ok tt)
      ∧ vertex_array_binding
          (gl_bindings {| vertex_array_binding := 7; array_buffer_binding := 0;
                          active_texture := GL_TEXTURE0;
                          texture_bindings := {[GL_TEXTURE0 := 9]} |}
             (new_calls (device loaded_crate.2) (device w'))) = 0.
Proof.
  intros mesh.
  assert (valid_pointers loaded_crate.2 [0; 1]%nat) as Hvalid.
  { repeat constructor; vm_compute; eexists; reflexivity. }
  split; [exact Hvalid|].
  destruct (Mesh_render_leaves_nothing_bound crate_env mesh some_program
              loaded_crate.2
              {| vertex_array_binding := 7; array_buffer_binding := 0;
                 active_texture := GL_TEXTURE0;
                 texture_bindings := {[GL_TEXTURE0 := 9]} |} Hvalid)
    as (w' & Hrun & _ & Hvao & _).
  exists w'. split; [exact Hrun | exact Hvao].
Defined.

(** ** models.h *)

#[local] Instance grows_preorder {T} : PreOrder (@grows T).
Proof.
  split.
  - intros s. by repeat split.
  - intros s1 s2 s3 (?&?&?&?&?&?) (?&?&?&?&?&?). unfold grows.
    split; [by etrans|]. split; [by etrans|]. split; [by etrans|].
    split; [congruence|]. split; [congruence|]. auto.
Qed.

Section AssetModel_more.
Context {V : Type} {VD : VertexData V} {FM : FromMesh V}.
Context {T : Type} {TC : TextureClass T}.
Context (L : Vertex) (env : Environment).

Implicit Types s : AssetModel.t * World T.

Lemma on_device_grows {A} (m : M Device A) :
  preserves grows (AssetModel.on_world (T := T) (on_device m)).
Proof.
  intros s s' r. rewrite on_world_run, on_device_run. intros [= <- _].
  by repeat split.
Qed.

Lemma load_texture_grows path textures :
  preserves grows (AssetModel.load_texture path textures).
Proof.
  intros [this w] s' r. unfold AssetModel.load_texture.
  erewrite bind_Ok; [|reflexivity]. cbn [fst].
  destruct (AssetModel.m_loaded_textures this !! path) as [found|] eqn:Hfind.
  { intros [= <- _]. reflexivity. }
  erewrite bind_Ok; [|apply on_world_eq; reflexivity].
  unfold bind at 1. rewrite on_world_run. cbn [fst snd].
  unfold arrow. cbn [heap device]. rewrite list_lookup_middle by done.
  destruct (texture_load (texture_new (fs.join (AssetModel.m_parentdir this) path),
                          device w)) as [[object d] [[]| |]];
    cbn [fst snd]; rewrite insert_app_r_alt, Nat.sub_diag by done; cbn [insert list_insert].
  - unfold bind, AssetModel.on_this, modify, ret. intros [= <- _].
    unfold grows. cbn [fst snd heap AssetModel.insert_texture
      AssetModel.m_loaded_textures AssetModel.m_meshes AssetModel.m_path
      AssetModel.m_parentdir AssetModel.m_loaded].
    split; [by apply prefix_app_r|]. split; [by apply insert_subseteq|]. done.
  - intros [= <- _]. unfold grows. cbn [fst snd heap].
    split; [by apply prefix_app_r|]. done.
  - intros [= <- _]. unfold grows. cbn [fst snd heap].
    split; [by apply prefix_app_r|]. done.
Qed.

Lemma process_node_mesh_grows scene mesh_index :
  preserves grows (AssetModel.process_node_mesh L scene mesh_index).
Proof.
  unfold AssetModel.process_node_mesh.
  destruct (scene_mMeshes scene !! N.to_nat mesh_index) as [raw_mesh|];
    [|apply preserves_crash, _].
  apply preserves_bind; [apply _| |].
  - unfold AssetModel.process_mesh.
    destruct (AssetModel.collect_vertices raw_mesh) as [vertices|];
      [|apply preserves_crash, _].
    apply preserves_bind; [apply _| |].
    + unfold AssetModel.collect_textures.
      destruct (0 <? mMaterialIndex raw_mesh); [|apply preserves_ret, _].
      destruct (mMaterials scene !! _); [|apply preserves_crash, _].
      apply preserves_bind; [apply _| |intros textures];
        apply preserves_fold_each; try apply _; apply load_texture_grows.
    + intros textures. apply on_device_grows.
  - intros mesh [this w] s' r [= <- _]. unfold grows.
    cbn [fst snd AssetModel.push_mesh AssetModel.m_loaded_textures
         AssetModel.m_meshes AssetModel.m_path AssetModel.m_parentdir
         AssetModel.m_loaded].
    split; [done|]. split; [done|]. split; [by apply prefix_app_r|]. done.
Qed.

(** X8: Whatever its outcome, [load] only adds: the texture objects, the cache
    entries and the meshes that existed before are still there, unchanged
    and at the same place; the path members are not written; a model that
    was loaded stays loaded. *)
Theorem load_only_adds s s' r :
  AssetModel.load L env s = (s', r) → grows s s'.
Proof.
  revert s s' r. change (preserves grows (AssetModel.load L env)).
  unfold AssetModel.load. apply preserves_bind; [apply _| |].
  { intros s s' r [= <- _]. reflexivity. }
  intros this. destruct (AssetModel.m_loaded this); [apply preserves_ret, _|].
  cbn [negb]. apply preserves_bind; [apply _| |].
  - unfold AssetModel.load_model. apply preserves_bind; [apply _| |].
    { intros s s' r [= <- _]. reflexivity. }
    intros this'. apply preserves_bind; [apply _ | apply on_device_grows |].
    intros _. destruct (ReadFile env _ _) as [scene|]; [|apply preserves_throw, _].
    destruct (mFlags scene =? AI_SCENE_FLAGS_INCOMPLETE); [apply preserves_throw, _|].
    destruct (mRootNode scene) as [root|]; [|apply preserves_throw, _].
    intros s s' r. rewrite process_node_for_each. revert s s' r.
    apply preserves_for_each; [apply _|]. apply process_node_mesh_grows.
  - intros _ [this' w] s' r [= <- _]. unfold grows.
    cbn [fst snd AssetModel.set_loaded AssetModel.m_loaded_textures
         AssetModel.m_meshes AssetModel.m_path AssetModel.m_parentdir
         AssetModel.m_loaded]. by repeat split.
Qed.

End AssetModel_more.

Lemma load_only_adds_witness :
  let s := unloaded_crate in
  let r := AssetModel.load (TC := CheckedTexture_class crate_env) DefaultVertex
             crate_env s in
  r.2 = Throw (runtime_error "Cannot decode image.") ∧ grows s r.1.
Proof.
  intros s r. split; [vm_compute; reflexivity|].
  exact (load_only_adds (TC := CheckedTexture_class crate_env) DefaultVertex
           crate_env s r.1 r.2 (surjective_pairing r)).
Defined.

Lemma never_throws_ret {S A} (a : A) : never_throws (ret (S := S) a).
Proof. by intros s s' e. Qed.

Lemma never_throws_crash {S A} : never_throws (crash (S := S) (A := A)).
Proof. by intros s s' e. Qed.

Lemma never_throws_bind {S A B} (m : M S A) (k : A → M S B) :
  never_throws m → (∀ a, never_throws (k a)) → never_throws (bind m k).
Proof.
  intros Hm Hk s s' e Hrun.
  apply bind_Throw_inv in Hrun as [Hrun | (s1 & a & _ & Hrun)].
  - by eapply Hm.
  - by eapply Hk.
Qed.

Lemma never_throws_fold_each {S X A} (body : X → A → M S A) (l : list X) (a : A) :
  (∀ x a, never_throws (body x a)) → never_throws (fold_each body l a).
Proof.
  intros Hbody. revert a. induction l as [|x l IH]; intros a.
  - apply never_throws_ret.
  - cbn [fold_each]. by apply never_throws_bind.
Qed.

Lemma never_throws_for_each {S X} (body : X → M S unit) (l : list X) :
  (∀ x, never_throws (body x)) → never_throws (for_each body l).
Proof.
  intros Hbody. induction l as [|x l IH].
  - apply never_throws_ret.
  - cbn [for_each]. by apply never_throws_bind.
Qed.

Section Texture2D_load.
Context {V : Type} {VD : VertexData V} {FM : FromMesh V}.
Context (L : Vertex) (env : Environment).

Implicit Types s : AssetModel.t * World Texture2D.t.

Lemma process_node_mesh_never_throws scene mesh_index :
  never_throws
    (AssetModel.process_node_mesh (TC := Texture2D_class env) L scene mesh_index).
Proof.
  unfold AssetModel.process_node_mesh.
  destruct (scene_mMeshes scene !! N.to_nat mesh_index) as [raw_mesh|];
    [|apply never_throws_crash].
  apply never_throws_bind; [|by intros mesh s s' e].
  unfold AssetModel.process_mesh.
  destruct (AssetModel.collect_vertices raw_mesh) as [vertices|];
    [|apply never_throws_crash].
  apply never_throws_bind.
  - unfold AssetModel.collect_textures.
    destruct (0 <? mMaterialIndex raw_mesh); [|apply never_throws_ret].
    destruct (mMaterials scene !! _) as [material|]; [|apply never_throws_crash].
    assert (∀ path textures,
              never_throws (AssetModel.load_texture (TC := Texture2D_class env)
                              path textures)) as Hone.
    { intros path textures s s' e Hrun.
      pose proof (load_texture_run env path textures s) as Hspec.
      destruct (AssetModel.m_loaded_textures s.1 !! path).
      - by rewrite Hspec in Hrun.
      - destruct Hspec as (texture & cs & Hspec & _). by rewrite Hspec in Hrun. }
    apply never_throws_bind; [|intros textures];
      by apply never_throws_fold_each.
  - intros textures s s' e. rewrite on_world_run, on_device_run.
    destruct (Mesh_new_run L vertices
                (AssetModel.collect_indices raw_mesh) textures (device s.2))
      as (cs & -> & _). done.
Qed.

(** X10: With the texture class of the library, [load] fails in one way only:
    the importer gave no usable scene.  It then throws [model_error] with
    the path of the model and "Cannot load model."; the model and the heap
    are untouched and the call log has gained the importer call, so that a
    later [load] asks the importer again.  Nothing inside the traversal
    throws. *)
Theorem load_fails_at_importer_only s :
  (AssetModel.m_loaded s.1 = false →
   imported env (AssetModel.m_path s.1) = None →
   AssetModel.load (TC := Texture2D_class env) L env s
   = ((s.1, world_logged s.2
              [Importer_ReadFile (AssetModel.m_path s.1)
                 (N.lor aiProcess_Triangulate aiProcess_FlipUVs)]),
      Throw (model_error (AssetModel.m_path s.1) "Cannot load model.")))
  ∧ (∀ s' e,
       AssetModel.load (TC := Texture2D_class env) L env s = (s', Throw e) →
       AssetModel.m_loaded s.1 = false
       ∧ imported env (AssetModel.m_path s.1) = None).
Proof.
  split.
  - intros Hloaded Himported. unfold AssetModel.load.
    erewrite bind_Ok; [|reflexivity]. cbn [fst]. rewrite Hloaded. cbn [negb].
    apply bind_Throw. unfold AssetModel.load_model.
    erewrite bind_Ok; [|reflexivity]. cbn [fst].
    erewrite bind_Ok; [|apply on_world_eq, on_device_logged, log_logged].
    unfold imported in Himported.
    destruct (ReadFile env _ _) as [scene|]; [|done].
    destruct (mFlags scene =? AI_SCENE_FLAGS_INCOMPLETE); [done|].
    by destruct (mRootNode scene).
  - intros s' e. unfold AssetModel.load.
    erewrite bind_Ok; [|reflexivity]. cbn [fst].
    destruct (AssetModel.m_loaded s.1); [done|]. cbn [negb]. intros Hrun.
    split; [done|].
    apply bind_Throw_inv in Hrun as [Hrun | (s1 & [] & _ & [=])].
    unfold AssetModel.load_model in Hrun.
    erewrite bind_Ok in Hrun; [|reflexivity]. cbn [fst] in Hrun.
    erewrite bind_Ok in Hrun;
      [|apply on_world_eq, on_device_logged, log_logged].
    unfold imported.
    destruct (ReadFile env _ _) as [scene|]; [|done].
    destruct (mFlags scene =? AI_SCENE_FLAGS_INCOMPLETE); [done|].
    destruct (mRootNode scene) as [root|]; [|done].
    exfalso. rewrite process_node_for_each in Hrun. revert Hrun.
    apply never_throws_for_each, process_node_mesh_never_throws.
Qed.
End Texture2D_load.

#[local] Instance keeps_names_preorder : PreOrder keeps_names.
Proof.
  split; [by intros s h0 g0|].
  intros s1 s2 s3 H12 H23 h0 g0 Hs. by apply H23, H12.
Qed.

Section Texture2D_names.
Context {V : Type} {VD : VertexData V} {FM : FromMesh V}.
Context (L : Vertex) (env : Environment).

Implicit Types s : AssetModel.t * World Texture2D.t.

Lemma load_texture_miss_run path textures s :
  AssetModel.m_loaded_textures s.1 !! path = None →
  AssetModel.load_texture (TC := Texture2D_class env) path textures s
  = ((AssetModel.insert_texture path (length (heap s.2)) s.1,
      {| heap := heap s.2
                 ++ [Texture2D.set_handle (generated_textures (device s.2) + 1)
                       (Texture2D.new env (fs.join (AssetModel.m_parentdir s.1) path))];
         device :=
           {| calls := calls (device s.2)
                       ++ Texture2D_load_calls env
                            (Texture2D.new env
                               (fs.join (AssetModel.m_parentdir s.1) path))
                            (generated_textures (device s.2) + 1);
              generated_vertex_arrays := generated_vertex_arrays (device s.2);
              generated_buffers := generated_buffers (device s.2);
              generated_textures := generated_textures (device s.2) + 1 |} |}),
     Ok (textures ++ [length (heap s.2)])).
Proof.
  destruct s as [this w]. cbn [fst snd]. intros Hmiss.
  unfold AssetModel.load_texture.
  erewrite bind_Ok; [|reflexivity]. cbn [fst snd]. rewrite Hmiss.
  erewrite bind_Ok; [|apply on_world_eq; reflexivity].
  erewrite bind_Ok; cycle 1.
  { apply on_world_eq. unfold arrow. cbn [fst snd heap device].
    rewrite list_lookup_middle by done.
    change (@texture_load _ (Texture2D_class env)) with (Texture2D.load env).
    change (@texture_new _ (Texture2D_class env)) with (Texture2D.new env).
    rewrite Texture2D_load_calls_run. cbn [fst snd]. reflexivity. }
  unfold bind, AssetModel.on_this, modify, ret. cbn [fst snd].
  rewrite insert_app_r_alt by done. rewrite Nat.sub_diag. reflexivity.
Qed.

Lemma load_texture_names path textures :
  preserves keeps_names
    (AssetModel.load_texture (TC := Texture2D_class env) path textures).
Proof.
  intros s s' r Hrun.
  destruct (AssetModel.m_loaded_textures s.1 !! path) as [found|] eqn:Hfind.
  { pose proof (load_texture_run env path textures s) as Hhit.
    rewrite Hfind in Hhit. rewrite Hhit in Hrun. injection Hrun as <- _.
    reflexivity. }
  rewrite load_texture_miss_run in Hrun by done. injection Hrun as <- _.
  intros h0 g0 (Hh0 & Hcount & Hnames). unfold own_names.
  cbn [fst snd heap device generated_textures]. rewrite length_app.
  cbn [length]. split; [lia|]. split; [lia|].
  intros p texture Hp Hobject.
  destruct (decide (p < length (heap s.2))%nat) as [Hlt|Hge].
  - rewrite lookup_app_l in Hobject by done. by apply Hnames.
  - apply lookup_lt_Some in Hobject as Hlen.
    rewrite length_app in Hlen. cbn [length] in Hlen.
    assert (p = length (heap s.2)) as -> by lia.
    rewrite list_lookup_middle in Hobject by done.
    injection Hobject as <-. cbn [Texture2D.set_handle Texture2D.m_handle].
    lia.
Qed.

Lemma process_node_mesh_names scene mesh_index :
  preserves keeps_names
    (AssetModel.process_node_mesh (TC := Texture2D_class env) L scene mesh_index).
Proof.
  unfold AssetModel.process_node_mesh.
  destruct (scene_mMeshes scene !! N.to_nat mesh_index) as [raw_mesh|];
    [|apply preserves_crash, _].
  apply preserves_bind; [apply _| |].
  - unfold AssetModel.process_mesh.
    destruct (AssetModel.collect_vertices raw_mesh) as [vertices|];
      [|apply preserves_crash, _].
    apply preserves_bind; [apply _| |].
    + unfold AssetModel.collect_textures.
      destruct (0 <? mMaterialIndex raw_mesh); [|apply preserves_ret, _].
      destruct (mMaterials scene !! _); [|apply preserves_crash, _].
      apply preserves_bind; [apply _| |intros textures];
        apply preserves_fold_each; try apply _; apply load_texture_names.
    + intros textures s s' r. rewrite on_world_run, on_device_run.
      destruct (Mesh_new_run L vertices
                  (AssetModel.collect_indices raw_mesh) textures (device s.2))
        as (cs & -> & _).
      intros [= <- _]. by intros h0 g0.
  - intros mesh [this w] s' r [= <- _]. by intros h0 g0.
Qed.

(** X11: Every texture of the cache has a name of its own: after a first
    successful [load] of a model with an empty cache, each cache entry
    points to a texture object whose name was generated during this load
    (so it is not 0 and was not in use before), and the entries of two
    different paths hold different names. *)
Theorem cached_textures_own_names s s' :
  AssetModel.m_loaded s.1 = false →
  AssetModel.m_loaded_textures s.1 = ∅ →
  AssetModel.load (TC := Texture2D_class env) L env s = (s', Ok tt) →
  (∀ path p, AssetModel.m_loaded_textures s'.1 !! path = Some p →
     ∃ texture, heap s'.2 !! p = Some texture
       ∧ generated_textures (device s.2) < Texture2D.m_handle texture
       ∧ Texture2D.m_handle texture ≤ generated_textures (device s'.2))
  ∧ (∀ path1 path2 p1 p2 texture1 texture2,
       AssetModel.m_loaded_textures s'.1 !! path1 = Some p1 →
       AssetModel.m_loaded_textures s'.1 !! path2 = Some p2 →
       heap s'.2 !! p1 = Some texture1 →
       heap s'.2 !! p2 = Some texture2 →
       path1 ≠ path2 →
       Texture2D.m_handle texture1 ≠ Texture2D.m_handle texture2).
Proof.
  destruct s as [this w]. cbn [fst snd]. intros Hloaded Hempty.
  unfold AssetModel.load.
  erewrite bind_Ok; [|reflexivity]. cbn [fst]. rewrite Hloaded. cbn [negb].
  intros Hrun. apply bind_Ok_inv in Hrun as (s1 & [] & Hmodel & [= <-]).
  unfold AssetModel.load_model in Hmodel.
  erewrite bind_Ok in Hmodel; [|reflexivity]. cbn [fst] in Hmodel.
  erewrite bind_Ok in Hmodel; [|apply on_world_eq, on_device_logged, log_logged].
  destruct (ReadFile env _ _) as [scene|]; [|done].
  destruct (mFlags scene =? AI_SCENE_FLAGS_INCOMPLETE); [done|].
  destruct (mRootNode scene) as [root|]; [|done].
  rewrite process_node_for_each in Hmodel.
  set (h0 := length (heap w)). set (c0 := length (calls (device w))).
  set (g0 := generated_textures (device w)).
  assert (own_names h0 g0 s1.2) as (_ & Hcount & Hnames).
  { revert Hmodel. cbn [fst snd].
    intros Hmodel.
    pose proof (preserves_for_each keeps_names _ _
                  (process_node_mesh_names scene) _ _ _ Hmodel) as Hkeeps.
    apply Hkeeps. unfold own_names. cbn. fold h0. rewrite Nat.sub_diag.
    split; [done|]. split; [subst g0; lia|].
    intros p texture Hp Hobject. apply lookup_lt_Some in Hobject. lia. }
  assert (cache_invariant h0 c0
            (this, world_logged w
                     [Importer_ReadFile (AssetModel.m_path this)
                        (N.lor aiProcess_Triangulate aiProcess_FlipUVs)]))
    as Hinv.
  { unfold cache_invariant. cbn. rewrite length_app. subst h0 c0.
    split; [lia|]. split; [lia|]. rewrite Hempty.
    split; [intros ? ? Hnone; by rewrite lookup_empty in Hnone|].
    split; [intros p; lia|].
    by rewrite drop_app_length, drop_all. }
  destruct (for_each_mesh_spec L env h0 c0 _ _ _ _ Hinv Hmodel)
    as ((Hh0 & _ & Hcached & _) & Hdir & _).
  cbn [fst snd AssetModel.set_loaded AssetModel.m_loaded_textures heap device
       generated_textures] in *.
  split.
  - intros path p Hp. destruct (Hcached _ _ Hp) as [Hle Hobject].
    apply fmap_Some in Hobject as (texture & Hobject & _).
    exists texture. split; [done|].
    rewrite (Hnames _ _ Hle Hobject), Hcount.
    apply lookup_lt_Some in Hobject. lia.
  - intros path1 path2 p1 p2 texture1 texture2 Hp1 Hp2 Hobject1 Hobject2 Hne.
    destruct (Hcached _ _ Hp1) as [Hle1 Hfile1].
    destruct (Hcached _ _ Hp2) as [Hle2 Hfile2].
    rewrite (Hnames _ _ Hle1 Hobject1), (Hnames _ _ Hle2 Hobject2).
    intros Hsame. assert (p1 = p2) as -> by lia.
    rewrite Hfile1 in Hfile2. injection Hfile2 as Hjoin.
    by apply join_inj in Hjoin.
Qed.
End Texture2D_names.

Lemma cached_textures_own_names_witness :
  AssetModel.m_loaded unloaded_crate.1 = false
  ∧ AssetModel.m_loaded_textures unloaded_crate.1 = ∅
  ∧ AssetModel.load (TC := Texture2D_class crate_env) DefaultVertex crate_env
      unloaded_crate = (loaded_crate, Ok tt)
  ∧ ∀ path p, AssetModel.m_loaded_textures loaded_crate.1 !! path = Some p →
      ∃ texture, heap loaded_crate.2 !! p = Some texture
        ∧ generated_textures (device unloaded_crate.2) < Texture2D.m_handle texture
        ∧ Texture2D.m_handle texture ≤ generated_textures (device loaded_crate.2).
Proof.
  assert (AssetModel.load (TC := Texture2D_class crate_env) DefaultVertex crate_env
            unloaded_crate = (loaded_crate, Ok tt)) as Hrun
    by (vm_compute; reflexivity).
  split; [reflexivity|]. split; [reflexivity|]. split; [exact Hrun|].
  exact (proj1 (cached_textures_own_names DefaultVertex crate_env
                  unloaded_crate loaded_crate eq_refl eq_refl Hrun)).
Defined.

Lemma load_fails_at_importer_only_witness :
  let s : AssetModel.t * World Texture2D.t :=
    (AssetModel.new "assets/missing.obj", fresh_world) in
  AssetModel.m_loaded s.1 = false
  ∧ imported crate_env "assets/missing.obj" = None
  ∧ AssetModel.load (TC := Texture2D_class crate_env) DefaultVertex crate_env s
    = ((s.1, world_logged s.2
               [Importer_ReadFile "assets/missing.obj"
                  (N.lor aiProcess_Triangulate aiProcess_FlipUVs)]),
       Throw (model_error "assets/missing.obj" "Cannot load model.")).
Proof.
  intros s. split; [reflexivity|]. split; [reflexivity|].
  exact (proj1 (load_fails_at_importer_only DefaultVertex crate_env s)
           eq_refl eq_refl).
Defined.

Section AssetModel_load.
Context {V : Type} {VD : VertexData V} {FM : FromMesh V}.
Context {T : Type} {TC : TextureClass T}.
Context (L : Vertex) (env : Environment).

Implicit Types s : AssetModel.t * World T.

(** X12: A first [load] that returns has got a scene from the importer whose
    flag word is not equal to [AI_SCENE_FLAGS_INCOMPLETE] and which has a
    root node; it has set the loaded flag and has added one mesh per
    sub-mesh reference of the node tree.  The flag word is compared as a
    whole: a scene that carries the incomplete bit together with another
    flag is loaded like a complete one. *)
Theorem load_success s s' :
  AssetModel.m_loaded s.1 = false →
  AssetModel.load L env s = (s', Ok tt) →
  ∃ scene root,
    ReadFile env (AssetModel.m_path s.1)
      (N.lor aiProcess_Triangulate aiProcess_FlipUVs) = Some scene
    ∧ mFlags scene ≠ AI_SCENE_FLAGS_INCOMPLETE
    ∧ mRootNode scene = Some root
    ∧ AssetModel.m_loaded s'.1 = true
    ∧ length (AssetModel.m_meshes s'.1)
      = (length (AssetModel.m_meshes s.1) + length (preorder root))%nat.
Proof.
  intros Hloaded. unfold AssetModel.load.
  erewrite bind_Ok; [|reflexivity]. cbn [fst]. rewrite Hloaded. cbn [negb].
  intros Hrun. apply bind_Ok_inv in Hrun as (s1 & [] & Hmodel & [= <-]).
  unfold AssetModel.load_model in Hmodel.
  erewrite bind_Ok in Hmodel; [|reflexivity]. cbn [fst] in Hmodel.
  erewrite bind_Ok in Hmodel; [|apply on_world_eq, on_device_logged, log_logged].
  destruct (ReadFile env _ _) as [scene|] eqn:Hscene; [|done].
  destruct (mFlags scene =? AI_SCENE_FLAGS_INCOMPLETE) eqn:Hflags; [done|].
  destruct (mRootNode scene) as [root|] eqn:Hroot; [|done].
  exists scene, root. split; [done|]. split; [by apply N.eqb_neq|].
  split; [exact Hroot|]. split; [done|].
  rewrite process_node_for_each in Hmodel.
  apply for_each_mesh_Ok in Hmodel as (_ & _ & meshes & Hmeshes & Hall).
  cbn [fst AssetModel.set_loaded AssetModel.m_meshes] in *.
  rewrite Hmeshes, length_app. by rewrite (Forall2_length _ _ _ Hall).
Qed.
End AssetModel_load.

(** A scene that is flagged incomplete and validated (flag word 3) loads. *)
Lemma load_success_witness :
  let s : AssetModel.t * World Texture2D.t :=
    (AssetModel.new "assets/partial.obj", fresh_world) in
  let s' := (AssetModel.load (TC := Texture2D_class partial_env) DefaultVertex
               partial_env s).1 in
  N.land (mFlags partial_scene) AI_SCENE_FLAGS_INCOMPLETE
    = AI_SCENE_FLAGS_INCOMPLETE
  ∧ AssetModel.load (TC := Texture2D_class partial_env) DefaultVertex
      partial_env s = (s', Ok tt)
  ∧ ∃ scene root,
      ReadFile partial_env (AssetModel.m_path s.1)
        (N.lor aiProcess_Triangulate aiProcess_FlipUVs) = Some scene
      ∧ mFlags scene ≠ AI_SCENE_FLAGS_INCOMPLETE
      ∧ mRootNode scene = Some root
      ∧ AssetModel.m_loaded s'.1 = true
      ∧ length (AssetModel.m_meshes s'.1)
        = (length (AssetModel.m_meshes s.1) + length (preorder root))%nat.
Proof.
  intros s s'.
  assert (AssetModel.load (TC := Texture2D_class partial_env) DefaultVertex
            partial_env s = (s', Ok tt)) as Hrun
    by (vm_compute; reflexivity).
  split; [reflexivity|]. split; [exact Hrun|].
  exact (load_success (TC := Texture2D_class partial_env) DefaultVertex
           partial_env s s' eq_refl Hrun).
Defined.

(** X13: The textures of a mesh follow its material: after a successful load, the
    mesh of a sub-mesh with a material index above 0 holds one pointer per
    texture path of the material, the diffuse paths in slot order before the
    specular ones; each pointer is the cache entry of its path and points to
    a texture whose file is that path resolved against the directory of the
    model. *)
Theorem mesh_textures_follow_material {V} {VD : VertexData V} {FM : FromMesh V}
    (L : Vertex) (env : Environment) (path : string) (w : World Texture2D.t)
    (s' : AssetModel.t * World Texture2D.t) (scene : aiScene) (root : aiNode)
    (i : nat) (mesh_index : N) (raw_mesh : aiMesh) (material : aiMaterial) :
  imported env path = Some (scene, root) →
  AssetModel.load (TC := Texture2D_class env) L env (AssetModel.new path, w)
    = (s', Ok tt) →
  preorder root !! i = Some mesh_index →
  scene_mMeshes scene !! N.to_nat mesh_index = Some raw_mesh →
  0 < mMaterialIndex raw_mesh →
  mMaterials scene !! N.to_nat (mMaterialIndex raw_mesh) = Some material →
  ∃ mesh,
    AssetModel.m_meshes s'.1 !! i = Some mesh
    ∧ Forall2
        (λ texture_path p,
           AssetModel.m_loaded_textures s'.1 !! texture_path = Some p
           ∧ ∃ texture, heap s'.2 !! p = Some texture
                        ∧ Texture2D.m_path texture
                          = fs.join (fs.dirname path) texture_path)
        (material_textures material aiTextureType_DIFFUSE
         ++ material_textures material aiTextureType_SPECULAR)
        (Mesh.m_textures mesh).
Proof.
  intros Himported Hload Hi Hraw Hpositive Hmaterial.
  apply (load_Ok_inv L env _ _ _ scene root) in Hload as (s1 & Hrun & ->);
    [|done|done].
  apply (for_each_mesh_spec L env (length (heap w)) (length (calls (device w))))
    in Hrun as (Hinv & Hdir & _ & meshes & Hmeshes & Hall).
  2: { unfold cache_invariant. cbn. rewrite length_app.
       split; [lia|]. split; [lia|].
       split; [intros ? ? Hempty; by rewrite lookup_empty in Hempty|].
       split; [intros p; lia|].
       by rewrite drop_app_length, drop_all. }
  cbn in Hdir, Hmeshes.
  destruct (Forall2_lookup_l _ _ _ _ _ Hall Hi) as (mesh & Hmesh & Hcached).
  exists mesh. cbn [fst snd AssetModel.set_loaded AssetModel.m_meshes
    AssetModel.m_loaded_textures]. rewrite Hmeshes. split; [done|].
  eapply Forall2_impl; [exact (Hcached _ _ Hraw Hpositive Hmaterial)|].
  intros texture_path p Hp. split; [done|].
  destruct Hinv as (_ & _ & Hobjects & _).
  destruct (Hobjects _ _ Hp) as [_ Hobject].
  apply fmap_Some in Hobject as (texture & Hobject & Hfile).
  exists texture. split; [done|]. by rewrite <- Hdir.
Qed.

Lemma mesh_textures_follow_material_witness :
  ∃ mesh,
    AssetModel.m_meshes loaded_crate.1 !! 1%nat = Some mesh
    ∧ Forall2
        (λ texture_path p,
           AssetModel.m_loaded_textures loaded_crate.1 !! texture_path = Some p
           ∧ ∃ texture, heap loaded_crate.2 !! p = Some texture
                        ∧ Texture2D.m_path texture
                          = fs.join (fs.dirname "assets/crate.obj") texture_path)
        ["wood.png"; "gloss.png"] (Mesh.m_textures mesh).
Proof.
  assert (AssetModel.load (TC := Texture2D_class crate_env) DefaultVertex crate_env
            (AssetModel.new "assets/crate.obj", fresh_world)
          = (loaded_crate, Ok tt)) as Hload by (vm_compute; reflexivity).
  exact (mesh_textures_follow_material DefaultVertex crate_env "assets/crate.obj"
           fresh_world loaded_crate crate_scene (Node [0; 1] [Node [2] []])
           1 1 side varnished_material eq_refl Hload eq_refl eq_refl
           eq_refl eq_refl).
Defined.

(** X14: [collect_indices] flattens the faces in face order: for a triangulated
    mesh there are three indices per face, and corner [j] of face [k] is
    index [3 k + j]. *)
Theorem collect_indices_triangles (raw_mesh : aiMesh) :
  Forall (λ face, length (mIndices face) = 3%nat) (mFaces raw_mesh) →
  length (AssetModel.collect_indices raw_mesh)
  = (3 * length (mFaces raw_mesh))%nat
  ∧ ∀ k face j,
      mFaces raw_mesh !! k = Some face → (j < 3)%nat →
      AssetModel.collect_indices raw_mesh !! (3 * k + j)%nat = mIndices face !! j.
Proof.
  unfold AssetModel.collect_indices.
  generalize (mFaces raw_mesh) as faces. intros faces.
  induction 1 as [|face faces Hface _ [IHlength IHlookup]].
  { split; [done|]. intros k face j Hk. by rewrite lookup_nil in Hk. }
  change (mjoin (map mIndices (face :: faces)))
    with (mIndices face ++ mjoin (map mIndices faces)).
  split.
  - rewrite length_app, IHlength, Hface. cbn [length]. lia.
  - intros [|k] face' j Hk Hj.
    + injection Hk as <-. by rewrite lookup_app_l by lia.
    + cbn [lookup list_lookup] in Hk. rewrite lookup_app_r by lia.
      rewrite Hface. replace (3 * S k + j - 3)%nat with (3 * k + j)%nat by lia.
      by apply IHlookup.
Qed.

Lemma collect_indices_triangles_witness :
  Forall (λ face, length (mIndices face) = 3%nat) (mFaces side)
  ∧ length (AssetModel.collect_indices side) = 6%nat.
Proof.
  assert (Forall (λ face, length (mIndices face) = 3%nat) (mFaces side)) as Hfaces
    by (by repeat constructor).
  split; [exact Hfaces|].
  exact (proj1 (collect_indices_triangles side Hfaces)).
Defined.

Lemma DefaultVertex_new_inv (raw_mesh : aiMesh) (i : nat) vertex :
  vertex_new raw_mesh (N.of_nat i) = Some vertex →
  mVertices raw_mesh !! i = Some (position vertex)
  ∧ mNormals raw_mesh !! i = Some (normal vertex)
  ∧ if HasTextureCoords0 raw_mesh
    then ∃ coords z, mTextureCoords0 raw_mesh = Some coords
                     ∧ coords !! i = Some (texture_coordinate vertex, z)
    else texture_coordinate vertex = (0, 0).
Proof.
  cbn [vertex_new DefaultVertex_from_mesh].
  unfold attribute_data.Position, attribute_data.Normal,
    attribute_data.TextureCoordinate, attribute_data.at_index.
  rewrite Nat2N.id.
  destruct (mVertices raw_mesh !! i) as [p|]; [|done].
  destruct (mNormals raw_mesh !! i) as [n|]; [|done].
  destruct (HasTextureCoords0 raw_mesh) eqn:Hhas.
  - unfold HasTextureCoords0 in Hhas.
    destruct (mTextureCoords0 raw_mesh) as [coords|]; [|done]. change (default [] (Some coords)) with coords.
    destruct (coords !! i) as [[[x y] z]|] eqn:Hc; [|done].
    intros [= <-]. cbn. split; [done|]. split; [done|]. by exists coords, z.
  - by intros [= <-].
Qed.

Lemma DefaultVertex_new_None (raw_mesh : aiMesh) (i : nat) :
  mVertices raw_mesh !! i = None
  ∨ mNormals raw_mesh !! i = None
  ∨ (∃ coords, mTextureCoords0 raw_mesh = Some coords
               ∧ 0 < mNumVertices raw_mesh ∧ coords !! i = None) →
  vertex_new (V := DefaultVertexData) raw_mesh (N.of_nat i) = None.
Proof.
  cbn [vertex_new DefaultVertex_from_mesh].
  unfold attribute_data.Position, attribute_data.Normal,
    attribute_data.TextureCoordinate, attribute_data.at_index, HasTextureCoords0.
  rewrite Nat2N.id.
  intros [-> | [Hn | (coords & -> & Hnum & Hc)]]; [done| |].
  - destruct (mVertices raw_mesh !! i); [|done]. by rewrite Hn.
  - destruct (mVertices raw_mesh !! i); [|done].
    destruct (mNormals raw_mesh !! i); [|done].
    apply N.ltb_lt in Hnum. rewrite Hnum. change (default [] (Some coords)) with coords. by rewrite Hc.
Qed.

(** X15: [collect_vertices] is defined exactly when every attribute array
    that the constructors of [DefaultVertex] index has an entry for every
    vertex index.  It then returns one vertex per index, in index order;
    vertex [i] carries entry [i] of the positions and of the normals, and of
    the first texture coordinate channel, or (0, 0) when the mesh has no
    such channel.  A mesh with vertices but without (enough) normals makes
    it undefined. *)
Theorem collect_vertices_by_index (raw_mesh : aiMesh) :
  (readable raw_mesh →
   ∃ vertices,
     AssetModel.collect_vertices (V := DefaultVertexData) raw_mesh
     = Some vertices
     ∧ length vertices = N.to_nat (mNumVertices raw_mesh)
     ∧ ∀ i vertex, vertices !! i = Some vertex →
         mVertices raw_mesh !! i = Some (position vertex)
         ∧ mNormals raw_mesh !! i = Some (normal vertex)
         ∧ match mTextureCoords0 raw_mesh with
           | Some coords => ∃ z, coords !! i = Some (texture_coordinate vertex, z)
           | None => texture_coordinate vertex = (0, 0)
           end)
  ∧ (¬ readable raw_mesh →
     AssetModel.collect_vertices (V := DefaultVertexData) raw_mesh = None).
Proof.
  unfold AssetModel.collect_vertices, readable.
  set (n := N.to_nat (mNumVertices raw_mesh)). split.
  - intros (Hpositions & Hnormals & Hcoords).
    destruct (mapM (λ i, vertex_new raw_mesh (N.of_nat i)) (seq 0 n))
      as [vertices|] eqn:Hmap.
    + exists vertices. split; [done|].
      pose proof (length_mapM _ _ _ Hmap) as Hlength.
      rewrite length_seq in Hlength. split; [done|].
      intros i vertex Hi. apply mapM_Some_1 in Hmap.
      destruct (Forall2_lookup_r _ _ _ _ _ Hmap Hi) as (j & Hj & Hnew).
      apply lookup_seq in Hj as [-> Hlt]. cbn [Nat.add] in Hnew.
      apply DefaultVertex_new_inv in Hnew as (Hp & Hn & Ht).
      split; [done|]. split; [done|].
      unfold HasTextureCoords0 in Ht.
      destruct (mTextureCoords0 raw_mesh) as [coords|]; [|done].
      assert ((0 <? mNumVertices raw_mesh) = true) as Hnum
        by (apply N.ltb_lt; lia).
      rewrite Hnum in Ht. destruct Ht as (coords' & z & [= <-] & Hz).
      by exists z.
    + exfalso. apply mapM_None_1, Exists_exists in Hmap as (i & Hi & Hnone).
      apply elem_of_seq in Hi.
      destruct (lookup_lt_is_Some_2 (mVertices raw_mesh) i) as [p Hp]; [lia|].
      destruct (lookup_lt_is_Some_2 (mNormals raw_mesh) i) as [v Hv]; [lia|].
      revert Hnone. cbn [vertex_new DefaultVertex_from_mesh].
      unfold attribute_data.Position, attribute_data.Normal,
        attribute_data.TextureCoordinate, attribute_data.at_index,
        HasTextureCoords0.
      rewrite Nat2N.id, Hp, Hv.
      destruct (mTextureCoords0 raw_mesh) as [coords|]; [|done].
      destruct (0 <? mNumVertices raw_mesh); [|done]. change (default [] (Some coords)) with coords.
      destruct (lookup_lt_is_Some_2 coords i) as [[[x y] z] Hc].
      { specialize (Hcoords coords eq_refl). lia. }
      by rewrite Hc.
  - intros Hshort. apply mapM_None_2, Exists_exists.
    destruct (decide (n ≤ length (mVertices raw_mesh))%nat) as [Hpositions|Hp].
    2: { exists (length (mVertices raw_mesh)). split; [apply elem_of_seq; lia|].
         apply DefaultVertex_new_None. left. by apply lookup_ge_None_2. }
    destruct (decide (n ≤ length (mNormals raw_mesh))%nat) as [Hnormals|Hn].
    2: { exists (length (mNormals raw_mesh)). split; [apply elem_of_seq; lia|].
         apply DefaultVertex_new_None. right. left. by apply lookup_ge_None_2. }
    destruct (mTextureCoords0 raw_mesh) as [coords|] eqn:Hc.
    2: { exfalso. apply Hshort. split; [done|]. split; [done|]. by intros. }
    destruct (decide (n ≤ length coords)%nat) as [Hcoords|Hshorter].
    { exfalso. apply Hshort. split; [done|]. split; [done|].
      by intros ? [= <-]. }
    exists (length coords). split; [apply elem_of_seq; lia|].
    apply DefaultVertex_new_None. right. right. exists coords.
    split; [done|]. split; [lia|]. by apply lookup_ge_None_2.
Qed.

Lemma collect_vertices_by_index_witness :
  readable side
  ∧ ¬ readable bare_side
  ∧ (∃ vertices,
       AssetModel.collect_vertices (V := DefaultVertexData) side = Some vertices
       ∧ length vertices = 4%nat)
  ∧ AssetModel.collect_vertices (V := DefaultVertexData) bare_side = None.
Proof.
  assert (readable side) as Hside.
  { unfold readable. cbn. split; [lia|]. split; [lia|]. by intros. }
  assert (¬ readable bare_side) as Hbare.
  { unfold readable. cbn. intros (_ & Hnormals & _). lia. }
  split; [exact Hside|]. split; [exact Hbare|]. split.
  - destruct (proj1 (collect_vertices_by_index side) Hside)
      as (vertices & Hrun & Hlength & _).
    by exists vertices.
  - exact (proj2 (collect_vertices_by_index bare_side) Hbare).
Defined.
